(** * Todo backend: authentication core and identity-scoped task access

    A shallow embedding of the backend's request handlers
    ([routes/tasks.py], [routes/auth.py]), its authentication dependency
    ([auth/dependencies.py]), its token and password helpers
    ([auth/jwt.py], [auth/password.py]) and its error layer ([errors.py]).

    Conventions.
    - A handler that raises becomes a function into [Raised + value]
      ([inl] is the raised exception, [inr] the returned value).
    - The database session is explicit state: a table is the list of its
      rows, handlers return the table they leave behind.
    - The wall clock, the uuid generator and the third-party libraries
      (python-jose, bcrypt, the framework's bearer extractor) are
      parameters of the functions that call them. *)

From Stdlib Require Import String Ascii List ZArith Bool Lia DecimalString Permutation.
Import ListNotations.
Open Scope string_scope.
Open Scope Z_scope.

(** ** Python values that cross the wire *)

(** JSON-shaped Python values, as found in exception details, response
    bodies and decoded token payloads. *)
#[warnings="-register-all"]
Inductive JsonValue : Type :=
| JNull
| JBool (b : bool)
| JInt (z : Z)
| JStr (s : string)
| JList (l : list JsonValue)
| JObj (o : list (string * JsonValue)).

(** A Python [dict] with string keys, in insertion order. *)
Definition Dict := list (string * JsonValue).

(** [d.get(k)]: the value bound to [k], [None] when the key is missing. *)
Fixpoint dict_get (d : Dict) (k : string) : option JsonValue :=
  match d with
  | [] => None
  | (k', v) :: d' => if String.eqb k' k then Some v else dict_get d' k
  end.

(** [d.get(k, default)]. *)
Definition dict_get_default (d : Dict) (k : string) (default : JsonValue) : JsonValue :=
  match dict_get d k with
  | Some v => v
  | None => default
  end.

(** [d[k] = v]: an existing key keeps its place, a new key goes last. *)
Fixpoint dict_set (d : Dict) (k : string) (v : JsonValue) : Dict :=
  match d with
  | [] => [(k, v)]
  | (k', v') :: d' =>
      if String.eqb k' k then (k', v) :: d' else (k', v') :: dict_set d' k v
  end.

(** [sep.join(parts)]. *)
Fixpoint join (sep : string) (parts : list string) : string :=
  match parts with
  | [] => ""
  | [x] => x
  | x :: rest => x ++ sep ++ join sep rest
  end.

(** Python truthiness of a JSON-shaped value. *)
Definition truthy (v : JsonValue) : bool :=
  match v with
  | JNull => false
  | JBool b => b
  | JInt z => negb (z =? 0)
  | JStr s => negb (String.eqb s "")
  | JList l => match l with [] => false | _ => true end
  | JObj o => match o with [] => false | _ => true end
  end.

(** Truthiness of the result of [d.get(k)] (a missing key gives [None]). *)
Definition truthy_opt (v : option JsonValue) : bool :=
  match v with
  | None => false
  | Some v => truthy v
  end.

(** ** Python strings *)

(** A Python [str] is represented by its UTF-8 encoding. *)
Module Py.

Definition of_bytes (codes : list nat) : string :=
  fold_right (fun n s => String (ascii_of_nat n) s) EmptyString codes.

(** The characters of a [str], each as its UTF-8 encoding (one to four
    bytes, by the leading byte). *)
Fixpoint chars (s : string) : list string :=
  match s with
  | EmptyString => []
  | String a r1 =>
      let n := nat_of_ascii a in
      if (n <? 192)%nat then String a EmptyString :: chars r1
      else if (n <? 224)%nat then
        match r1 with
        | String b r2 => String a (String b EmptyString) :: chars r2
        | EmptyString => [String a EmptyString]
        end
      else if (n <? 240)%nat then
        match r1 with
        | String b (String c r3) =>
            String a (String b (String c EmptyString)) :: chars r3
        | _ => [String a r1]
        end
      else
        match r1 with
        | String b (String c (String d r4)) =>
            String a (String b (String c (String d EmptyString))) :: chars r4
        | _ => [String a r1]
        end
  end.

(** The characters [str.strip()] and [str.isspace()] take for
    whitespace: U+0009..U+000D, U+001C..U+0020, U+0085, U+00A0, U+1680,
    U+2000..U+200A, U+2028, U+2029, U+202F, U+205F and U+3000. *)
Definition whitespace_codes : list (list nat) :=
  ([ [9]; [10]; [11]; [12]; [13]; [28]; [29]; [30]; [31]; [32];
    [194; 133]; [194; 160]; [225; 154; 128];
    [226; 128; 128]; [226; 128; 129]; [226; 128; 130]; [226; 128; 131];
    [226; 128; 132]; [226; 128; 133]; [226; 128; 134]; [226; 128; 135];
    [226; 128; 136]; [226; 128; 137]; [226; 128; 138];
    [226; 128; 168]; [226; 128; 169]; [226; 128; 175];
    [226; 129; 159]; [227; 128; 128] ])%nat.

Definition whitespace (c : string) : bool :=
  existsb (fun codes => String.eqb c (of_bytes codes)) whitespace_codes.

(** Drop the leading whitespace characters. *)
Fixpoint lstrip_chars (l : list string) : list string :=
  match l with
  | [] => []
  | c :: rest => if whitespace c then lstrip_chars rest else l
  end.

(** [s.strip()]. *)
Definition strip (s : string) : string :=
  String.concat "" (rev (lstrip_chars (rev (lstrip_chars (chars s))))).

End Py.

(** ** errors.py *)

Module Errors.

(** The [detail] of an [HTTPException]: a plain string or a dict. *)
Inductive Detail : Type :=
| DetailStr (s : string)
| DetailDict (d : Dict).

Record HTTPException : Type := mkHTTPException {
  status_code : Z;
  detail : Detail
}.

(** What a handler can raise: an [HTTPException], or any other exception
    (a database integrity error, for instance), which reaches the
    catch-all handler. *)
Inductive Raised : Type :=
| RaiseHTTP (e : HTTPException)
| RaiseOther.

(** The body of an error response: [{"error", "message", "details"?}]. *)
Record ErrorContent : Type := mkErrorContent {
  error : JsonValue;
  message : JsonValue;
  details : option JsonValue
}.

Record JSONResponse : Type := mkJSONResponse {
  resp_status : Z;
  content : ErrorContent
}.

(** [_get_error_code_from_status]. *)
Definition _get_error_code_from_status (status : Z) : string :=
  if status =? 400 then "VALIDATION_ERROR"
  else if status =? 401 then "UNAUTHORIZED"
  else if status =? 403 then "FORBIDDEN"
  else if status =? 404 then "NOT_FOUND"
  else if status =? 409 then "EMAIL_EXISTS"
  else if status =? 422 then "VALIDATION_ERROR"
  else if status =? 500 then "SERVER_ERROR"
  else "ERROR".

(** [http_exception_handler]: the response built from an
    [HTTPException] (logging left out). *)
Definition http_exception_handler (exc : HTTPException) : JSONResponse :=
  let '(error_code, msg, dets) :=
    match detail exc with
    | DetailDict d =>
        (dict_get_default d "error" (JStr "ERROR"),
         dict_get_default d "message" (JStr "An error occurred"),
         dict_get d "details")
    | DetailStr s =>
        (JStr (_get_error_code_from_status (status_code exc)),
         JStr (if String.eqb s "" then "An error occurred" else s),
         None)
    end in
  mkJSONResponse (status_code exc)
    (mkErrorContent error_code msg
       (if truthy_opt dets then dets else None)).

(** [generic_exception_handler]: the sanitized catch-all response. *)
Definition generic_exception_handler : JSONResponse :=
  mkJSONResponse 500
    (mkErrorContent (JStr "SERVER_ERROR") (JStr "Something went wrong") None).

(** The response the application sends for whatever a handler raised. *)
Definition error_response (r : Raised) : JSONResponse :=
  match r with
  | RaiseHTTP e => http_exception_handler e
  | RaiseOther => generic_exception_handler
  end.

Definition std_detail (code msg : string) : Detail :=
  DetailDict [("error", JStr code); ("message", JStr msg)].

(** [raise_unauthorized(message)]. *)
Definition raise_unauthorized (msg : string) : Raised :=
  RaiseHTTP (mkHTTPException 401 (std_detail "UNAUTHORIZED" msg)).

(** [raise_forbidden(message)]. *)
Definition raise_forbidden (msg : string) : Raised :=
  RaiseHTTP (mkHTTPException 403 (std_detail "FORBIDDEN" msg)).

(** [raise_not_found(message)]. *)
Definition raise_not_found (msg : string) : Raised :=
  RaiseHTTP (mkHTTPException 404 (std_detail "NOT_FOUND" msg)).

(** [raise_conflict(message)]. *)
Definition raise_conflict (msg : string) : Raised :=
  RaiseHTTP (mkHTTPException 409 (std_detail "EMAIL_EXISTS" msg)).

(** [raise_bad_request(message, details=None)]. *)
Definition raise_bad_request (msg : string) (dets : option Dict) : Raised :=
  let base := [("error", JStr "VALIDATION_ERROR"); ("message", JStr msg)] in
  RaiseHTTP (mkHTTPException 400
    (DetailDict
       (match dets with
        | Some (x :: xs) => (base ++ [("details", JObj (x :: xs))])%list
        | _ => base
        end))).

(** The three observable parts of an error outcome: HTTP status, error
    code, message. *)
Definition outcome (r : Raised) : Z * JsonValue * JsonValue :=
  let resp := error_response r in
  (resp_status resp, error (content resp), message (content resp)).

(** One element of the location of a validation error: a field name or
    an index. *)
Inductive Loc : Type :=
| LocStr (s : string)
| LocInt (i : Z).

(** One item of [exc.errors()]: where, and what. *)
Record ValidationItem : Type := mkValidationItem {
  loc : list Loc;
  msg : string
}.

(** [str(loc)]. *)
Definition str_loc (l : Loc) : string :=
  match l with
  | LocStr s => s
  | LocInt i => NilZero.string_of_int (Z.to_int i)
  end.

(** [loc != "body"]. *)
Definition not_body (l : Loc) : bool :=
  match l with
  | LocStr s => negb (String.eqb s "body")
  | LocInt _ => true
  end.

(** The key under which [validation_exception_handler] files an error:
    [".".join(str(loc) for loc in error["loc"] if loc != "body")]. *)
Definition request_field (e : ValidationItem) : string :=
  join "." (map str_loc (filter not_body (loc e))).

(** The key under which [pydantic_validation_handler] files an error. *)
Definition model_field (e : ValidationItem) : string :=
  join "." (map str_loc (loc e)).

(** The loop [for error in exc.errors(): details[field] = message]. *)
Definition collect_details (field : ValidationItem -> string)
    (errors : list ValidationItem) : Dict :=
  fold_left (fun details e => dict_set details (field e) (JStr (msg e))) errors [].

(** [validation_exception_handler] (logging left out). *)
Definition validation_exception_handler (errors : list ValidationItem) : JSONResponse :=
  mkJSONResponse 422
    (mkErrorContent (JStr "VALIDATION_ERROR") (JStr "Validation failed")
       (Some (JObj (collect_details request_field errors)))).

(** [pydantic_validation_handler]. *)
Definition pydantic_validation_handler (errors : list ValidationItem) : JSONResponse :=
  mkJSONResponse 422
    (mkErrorContent (JStr "VALIDATION_ERROR") (JStr "Validation failed")
       (Some (JObj (collect_details model_field errors)))).

End Errors.

(** ** config.py *)

Module Config.

(** The settings the authentication core reads. *)
Record Settings : Type := mkSettings {
  better_auth_secret : string;
  jwt_algorithm : string;
  jwt_expiration_hours : Z
}.

(** [Settings.secret_key]: alias of [better_auth_secret]. *)
Definition secret_key (s : Settings) : string := better_auth_secret s.

(** Settings with the declared defaults ([HS256], 24 hours); the secret
    has no default. *)
Definition default_settings (secret : string) : Settings :=
  mkSettings secret "HS256" 24.

End Config.

(** ** Time *)

(** A [datetime] is a number of seconds, a [date] a day number. A naive
    [datetime] (one without zone, as [datetime.utcnow()] returns) is the
    number of seconds its fields denote when read as UTC. *)
Definition datetime := Z.
Definition date := Z.

(** [datetime.min] and [datetime.max] (years 1 to 9999), in whole
    seconds; arithmetic that leaves this range raises
    [OverflowError]. *)
Definition datetime_min : datetime := -62135596800.
Definition datetime_max : datetime := 253402300799.

(** ** auth/jwt.py *)

Module Jwt.

(** What [jws.verify] and the parse of the payload did, as seen from
    [jwt.decode]: the claims, an error that [jwt.decode] raises as
    [JWTError] (malformed token, algorithm not allowed, signature that
    does not match the key, payload that is no JSON object), or any
    other exception (a key the algorithm cannot use, for instance),
    which [jwt.decode] lets through. *)
Inductive VerifyResult : Type :=
| Verified (claims : Dict)
| Rejected
| Crashed.

(** The part of python-jose the token helpers call.
    - [jws_sign claims key algorithm] is [jws.sign], the compact
      serialization of the signed claims; [None] when it raises
      (unsupported algorithm, unusable key).
    - [jws_verify token key algorithms]: see [VerifyResult].
    - [int_of_str s] is the built-in [int(s)] on a [str]; [None] is
      its [ValueError].
    - [claims_ok claims] is the validation of the claims [aud], [iss],
      [sub], [jti] and [at_hash], which only ever raises
      [JWTClaimsError]. *)
Record Jose : Type := mkJose {
  jws_sign : Dict -> string -> string -> option string;
  jws_verify : string -> string -> list string -> VerifyResult;
  int_of_str : string -> option Z;
  claims_ok : Dict -> bool
}.

Inductive JWTError : Type :=
| InvalidToken           (* JWTError: structure or signature *)
| JWTClaimsError
| ExpiredSignatureError.

(** What [jwt.decode] raises: a [JWTError], or another exception
    ([TypeError] from [int(None)], whatever [jws.verify] let
    through). *)
Inductive DecodeError : Type :=
| JWT (e : JWTError)
| OtherException.

(** The built-in [int(v)] as the claim validators call it, inside
    [try: ... except ValueError]. JSON numbers with a fraction are not
    represented. *)
Inductive IntResult : Type :=
| IntOk (z : Z)
| IntValueError
| IntTypeError.

Definition py_int (lib : Jose) (v : JsonValue) : IntResult :=
  match v with
  | JInt z => IntOk z
  | JBool b => IntOk (if b then 1 else 0)
  | JStr s => match int_of_str lib s with
              | Some z => IntOk z
              | None => IntValueError
              end
  | JNull | JList _ | JObj _ => IntTypeError
  end.

(** A time claim read through [int]: absent, a number, or the exception
    the validator raises for it (only [ValueError] is turned into
    [JWTClaimsError]). *)
Definition time_claim (lib : Jose) (claims : Dict) (name : string)
    : DecodeError + option Z :=
  match dict_get claims name with
  | None => inr None
  | Some v =>
      match py_int lib v with
      | IntOk z => inr (Some z)
      | IntValueError => inl (JWT JWTClaimsError)
      | IntTypeError => inl OtherException
      end
  end.

(** python-jose's [_validate_iat]: [iat], if present, must convert. *)
Definition _validate_iat (lib : Jose) (claims : Dict) : option DecodeError :=
  match time_claim lib claims "iat" with
  | inl e => Some e
  | inr _ => None
  end.

(** python-jose's [_validate_nbf] with the default leeway of 0: the
    token is not yet valid when [nbf > now]. *)
Definition _validate_nbf (lib : Jose) (claims : Dict) (now : Z) : option DecodeError :=
  match time_claim lib claims "nbf" with
  | inl e => Some e
  | inr None => None
  | inr (Some nbf) => if now <? nbf then Some (JWT JWTClaimsError) else None
  end.

(** python-jose's [_validate_exp] with the default leeway of 0: no
    [exp] claim passes; the token is expired when [exp < now]; [now] is
    the UTC epoch time in whole seconds. *)
Definition _validate_exp (lib : Jose) (claims : Dict) (now : Z) : option DecodeError :=
  match time_claim lib claims "exp" with
  | inl e => Some e
  | inr None => None
  | inr (Some exp) => if exp <? now then Some (JWT ExpiredSignatureError) else None
  end.

(** [jwt.encode(claims, key, algorithm)]; [None] when it raises. *)
Definition jwt_encode (lib : Jose) (claims : Dict) (key alg : string) : option string :=
  jws_sign lib claims key alg.

(** [jwt.decode(token, key, algorithms)] at UTC epoch time [now]: the
    signature, then the claims in the library's order ([iat], [nbf],
    [exp], then the others). *)
Definition jwt_decode (lib : Jose) (now : Z) (token key : string)
    (algorithms : list string) : DecodeError + Dict :=
  match jws_verify lib token key algorithms with
  | Crashed => inl OtherException
  | Rejected => inl (JWT InvalidToken)
  | Verified claims =>
      match _validate_iat lib claims with
      | Some e => inl e
      | None =>
          match _validate_nbf lib claims now with
          | Some e => inl e
          | None =>
              match _validate_exp lib claims now with
              | Some e => inl e
              | None =>
                  if claims_ok lib claims then inr claims
                  else inl (JWT JWTClaimsError)
              end
          end
      end
  end.

Section TokenService.

Variable lib : Jose.
Variable settings : Config.Settings.

(** The local zone's offset from UTC, in seconds, at a naive local
    time: [naive.timestamp()] reads a naive [datetime] as local time.
    [None] when the platform cannot convert that time. *)
Variable utc_offset : datetime -> option Z.

(** [int(naive.timestamp())]; [None] when it raises. *)
Definition timestamp (naive : datetime) : option Z :=
  match utc_offset naive with
  | Some offset => Some (naive - offset)
  | None => None
  end.

(** The claims [create_access_token] builds when [datetime.utcnow()]
    returns [now]; [None] when [now + expires_delta] leaves the range
    of [datetime] or a timestamp cannot be taken. *)
Definition access_token_payload (now : datetime) (user_id email : string)
    : option Dict :=
  let expires_delta := 3600 * Config.jwt_expiration_hours settings in
  let expire := now + expires_delta in
  if (datetime_min <=? expire) && (expire <=? datetime_max) then
    match timestamp now, timestamp expire with
    | Some iat, Some exp =>
        Some [ ("sub", JStr user_id);
               ("email", JStr email);
               ("iat", JInt iat);
               ("exp", JInt exp) ]
    | _, _ => None
    end
  else None.

(** [create_access_token(user_id, email)]; an exception is not
    caught. *)
Definition create_access_token (now : datetime) (user_id email : string)
    : Errors.Raised + string :=
  match access_token_payload now user_id email with
  | None => inl Errors.RaiseOther
  | Some payload =>
      match jwt_encode lib payload (Config.secret_key settings)
              (Config.jwt_algorithm settings) with
      | Some encoded_jwt => inr encoded_jwt
      | None => inl Errors.RaiseOther
      end
  end.

(** [verify_token(token)]: [None] on a [JWTError]; any other exception
    of [jwt.decode] is not caught. *)
Definition verify_token (now : datetime) (token : string)
    : Errors.Raised + option Dict :=
  match jwt_decode lib now token (Config.secret_key settings)
          [Config.jwt_algorithm settings] with
  | inr payload => inr (Some payload)
  | inl (JWT _) => inr None
  | inl OtherException => inl Errors.RaiseOther
  end.

(** [extract_user_id(token)]. *)
Definition extract_user_id (now : datetime) (token : string)
    : Errors.Raised + option JsonValue :=
  match verify_token now token with
  | inl e => inl e
  | inr (Some payload) =>
      match payload with
      | [] => inr None
      | _ => inr (dict_get payload "sub")
      end
  | inr None => inr None
  end.

End TokenService.

End Jwt.

(** ** auth/password.py *)

Module Password.

(** The part of the bcrypt package the password helpers call
    (bcrypt 4.x and 5.x).
    - [digest password salt] is the cost-parameterized hash of at most
      72 password bytes under the 29-character salt string
      ([$2b$12$] and 22 characters), already encoded; it is the last
      31 characters of a bcrypt hash.
    - [valid_salt s] tells whether the library can parse [s] as a salt.
    - [rejects_long]: bcrypt 5.0 raises [ValueError] for a password
      longer than 72 bytes, earlier releases use its first 72 bytes. *)
Record Bcrypt : Type := mkBcrypt {
  digest : string -> string -> string;
  valid_salt : string -> bool;
  rejects_long : bool
}.

(** An exception raised by the library ([ValueError]). *)
Inductive BcryptError : Type := ValueError.

Definition two_digits (n : Z) : string :=
  String (ascii_of_nat (48 + Z.to_nat (n / 10)))
    (String (ascii_of_nat (48 + Z.to_nat (n mod 10))) "").

(** [bcrypt.gensalt(rounds)]; [rand] is the 22-character encoding of
    the 16 random bytes this call draws. *)
Definition gensalt (rounds : Z) (rand : string) : string :=
  "$2b$" ++ two_digits rounds ++ "$" ++ rand.

(** [bcrypt.hashpw(password, salt)]: only the first 29 characters of
    [salt] are read, so that a full hash can stand for its salt. *)
Definition hashpw (lib : Bcrypt) (password salt : string) : BcryptError + string :=
  let salt29 := substring 0 29 salt in
  if negb ((String.length salt29 =? 29)%nat && valid_salt lib salt29) then inl ValueError
  else if (72 <? String.length password)%nat then
    if rejects_long lib then inl ValueError
    else inr (salt29 ++ digest lib (substring 0 72 password) salt29)
  else inr (salt29 ++ digest lib password salt29).

(** [bcrypt.checkpw(password, hashed_password)]: hash [password] under
    the salt embedded in [hashed_password] and compare. *)
Definition checkpw (lib : Bcrypt) (password hashed_password : string)
    : BcryptError + bool :=
  match hashpw lib password hashed_password with
  | inl e => inl e
  | inr ret => inr (String.eqb ret hashed_password)
  end.

Section CredentialHasher.

Variable lib : Bcrypt.

(** [hash_password(password)]; a Python [str] is represented by its
    UTF-8 encoding. An exception of the library is not caught. *)
Definition hash_password (rand : string) (password : string)
    : BcryptError + string :=
  let password_bytes := password in
  let salt := gensalt 12 rand in
  hashpw lib password_bytes salt.

(** [verify_password(plain_password, hashed_password)]: any exception
    becomes [False]. *)
Definition verify_password (plain_password hashed_password : string) : bool :=
  match checkpw lib plain_password hashed_password with
  | inr b => b
  | inl _ => false
  end.

End CredentialHasher.

End Password.

(** ** auth/dependencies.py *)

Module Dependencies.
Import Errors.

Record HTTPAuthorizationCredentials : Type := mkCredentials {
    scheme : string;
    credentials : string
  }.

(** What differs between the releases of the framework in its bearer
    extractor: the status of the exceptions it raises (403 up to
    FastAPI 0.121, 401 since 0.122), the message for a header of
    another scheme, and whether the credentials are stripped of
    surrounding whitespace. *)
Record Framework : Type := mkFramework {
  bearer_status : Z;
  other_scheme_detail : string;
  strips_credentials : bool
}.

(** FastAPI up to 0.121. *)
Definition fastapi_0_121 : Framework :=
  mkFramework 403 "Invalid authentication credentials" false.

(** A recent FastAPI: 401 with one message, credentials stripped. *)
Definition fastapi_recent : Framework :=
  mkFramework 401 "Not authenticated" true.

(** [s.partition(" ")]: the text before and after the first space. *)
Fixpoint partition_space (s : string) : string * string :=
  match s with
  | EmptyString => ("", "")
  | String c rest =>
      if Ascii.eqb c " " then ("", rest)
      else let '(a, b) := partition_space rest in (String c a, b)
  end.

(** The framework's [get_authorization_scheme_param]. *)
Definition get_authorization_scheme_param (fw : Framework)
    (authorization : option string) : string * string :=
  match authorization with
  | None => ("", "")
  | Some "" => ("", "")
  | Some h =>
      let '(sch, param) := partition_space h in
      (sch, if strips_credentials fw then Py.strip param else param)
  end.

Definition lower_ascii (c : ascii) : ascii :=
  let n := nat_of_ascii c in
  if ((65 <=? n) && (n <=? 90))%nat then ascii_of_nat (n + 32) else c.

(** [s.lower()] on the ASCII letters, which is all the comparison with
    ["bearer"] depends on. *)
Fixpoint lower (s : string) : string :=
  match s with
  | EmptyString => EmptyString
  | String c rest => String (lower_ascii c) (lower rest)
  end.

(** Truthiness of an optional header value: present and not empty. *)
Definition present (header : option string) : bool :=
  match header with
  | Some h => negb (String.eqb h "")
  | None => false
  end.

(** The framework's [HTTPBearer(auto_error)] applied to the request's
    [Authorization] header. *)
Definition HTTPBearer (fw : Framework) (auto_error : bool)
    (authorization : option string)
    : Raised + option HTTPAuthorizationCredentials :=
  let '(sch, cred) := get_authorization_scheme_param fw authorization in
  if negb (present authorization
           && negb (String.eqb sch "") && negb (String.eqb cred "")) then
    if auto_error then
      inl (RaiseHTTP (mkHTTPException (bearer_status fw)
                        (DetailStr "Not authenticated")))
    else inr None
  else if negb (String.eqb (lower sch) "bearer") then
    if auto_error then
      inl (RaiseHTTP (mkHTTPException (bearer_status fw)
                        (DetailStr (other_scheme_detail fw))))
    else inr None
  else inr (Some (mkCredentials sch cred)).

Section Gate.

Variable lib : Jwt.Jose.
Variable settings : Config.Settings.

(** [get_current_user(credentials)] at UTC epoch time [now]; an
    exception that [verify_token] lets through is not caught. *)
Definition get_current_user (now : datetime)
    (creds : HTTPAuthorizationCredentials) : Raised + JsonValue :=
  let token := credentials creds in
  match Jwt.verify_token lib settings now token with
  | inl e => inl e
  | inr None => inl (raise_unauthorized "Missing or invalid authentication token")
  | inr (Some []) => inl (raise_unauthorized "Missing or invalid authentication token")
  | inr (Some payload) =>
      let user_id := dict_get payload "sub" in
      match user_id with
      | Some v =>
          if truthy v then inr v
          else inl (raise_unauthorized "Invalid token structure")
      | None => inl (raise_unauthorized "Invalid token structure")
      end
  end.

(** [get_current_user_optional(credentials)]. *)
Definition get_current_user_optional (now : datetime)
    (creds : option HTTPAuthorizationCredentials)
    : Raised + option JsonValue :=
  match creds with
  | None => inr None
  | Some c =>
      match Jwt.verify_token lib settings now (credentials c) with
      | inl e => inl e
      | inr None => inl (raise_unauthorized "Invalid authentication token")
      | inr (Some []) => inl (raise_unauthorized "Invalid authentication token")
      | inr (Some payload) => inr (dict_get payload "sub")
      end
  end.

(** A protected endpoint's dependency chain:
    [Depends(security)] with [security = HTTPBearer()], then
    [get_current_user]. *)
Definition protected_gate (fw : Framework) (now : datetime)
    (authorization : option string) : Raised + JsonValue :=
  match HTTPBearer fw true authorization with
  | inl e => inl e
  | inr (Some creds) => get_current_user now creds
  | inr None => inl RaiseOther
  end.

(** The dependency chain of an endpoint open to anonymous callers:
    [Depends(HTTPBearer(auto_error=False))], then
    [get_current_user_optional]. *)
Definition optional_gate (fw : Framework) (now : datetime)
    (authorization : option string) : Raised + option JsonValue :=
  match HTTPBearer fw false authorization with
  | inl e => inl e
  | inr creds => get_current_user_optional now creds
  end.

End Gate.

End Dependencies.

(** ** models/user.py, models/task.py *)

Module User.
(** A row of the [users] table. *)
Record t : Type := mk {
  id : string;
  email : string;
  password_hash : string;
  created_at : datetime
}.
End User.

Module Task.
(** A [Task] object. [title] and [is_completed] are declared without
    [Optional] (their columns are NOT NULL), yet the attribute of a
    loaded object can be assigned [None]; the database refuses such a
    row when the session commits. *)
Record t : Type := mk {
  id : string;
  user_id : string;
  title : option string;
  description : option string;
  due_date : option date;
  is_completed : option bool;
  created_at : datetime;
  updated_at : datetime
}.
End Task.

(** ** database.py: the session as explicit state *)

Module Database.

Record Session : Type := mkSession {
    users : list User.t;
    tasks : list Task.t
  }.

(** [session.exec(select(M).where(p)).first()]. *)
Definition first {A : Type} (p : A -> bool) (rows : list A) : option A :=
  hd_error (filter p rows).

(** The order in which the engine returns the rows of a SELECT without
    ORDER BY: some arrangement of the rows, of the engine's choosing. *)
Record RowOrder : Type := mkRowOrder {
  arrange : forall A : Type, list A -> list A;
  arranged : forall (A : Type) (rows : list A), Permutation (arrange A rows) rows
}.

(** [session.exec(select(M).where(p)).all()]. *)
Definition all {A : Type} (order : RowOrder) (p : A -> bool) (rows : list A)
    : list A :=
  arrange order A (filter p rows).

(** The NOT NULL columns of [tasks] that a request can reach. *)
Definition task_not_null (t : Task.t) : bool :=
  match Task.title t, Task.is_completed t with
  | Some _, Some _ => true
  | _, _ => false
  end.

(** Commit of a newly added task (INSERT): refused when the primary key
    is taken, the owner is not a row of [users] (foreign key), or a
    NOT NULL column is empty. [None] is the integrity error. *)
Definition insert_task (s : Session) (t : Task.t) : option Session :=
  if existsb (fun r => String.eqb (Task.id r) (Task.id t)) (tasks s) then None
  else if negb (existsb (fun u => String.eqb (User.id u) (Task.user_id t)) (users s))
  then None
  else if negb (task_not_null t) then None
  else Some (mkSession (users s) (tasks s ++ [t])).

(** Commit of a modified, loaded task (UPDATE by primary key). *)
Definition update_task_row (s : Session) (t : Task.t) : option Session :=
  if negb (task_not_null t) then None
  else Some (mkSession (users s)
               (map (fun r => if String.eqb (Task.id r) (Task.id t) then t else r)
                    (tasks s))).

(** Commit of a deleted task (DELETE by primary key). *)
Definition delete_task_row (s : Session) (t : Task.t) : Session :=
  mkSession (users s)
    (filter (fun r => negb (String.eqb (Task.id r) (Task.id t))) (tasks s)).

(** Commit of a newly added user (INSERT): refused when the primary key
    or the unique e-mail is taken. *)
Definition insert_user (s : Session) (u : User.t) : option Session :=
  if existsb (fun r => String.eqb (User.id r) (User.id u)) (users s) then None
  else if existsb (fun r => String.eqb (User.email r) (User.email u)) (users s)
  then None
  else Some (mkSession (users s ++ [u]) (tasks s)).

(** The primary key of [tasks]: no two rows share an [id]. *)
Definition tasks_pk (s : Session) : Prop := NoDup (map Task.id (tasks s)).

End Database.

(** ** schemas/task.py *)

Module TaskCreate.
(** A validated create request. The schema declares these four fields
    and no other; keys of the body it does not declare are dropped by
    the validation. *)
Record t : Type := mk {
  title : string;
  description : option string;
  due_date : option date;
  is_completed : bool
}.
End TaskCreate.

Module TaskUpdate.
(** A validated update request. Each field is unset ([None]), or set
    to a value that may be [null] ([Some None]). *)
Record t : Type := mk {
  title : option (option string);
  description : option (option string);
  due_date : option (option date);
  is_completed : option (option bool)
}.

(** One item of [model_dump(exclude_unset=True)]: a field name with
    its value. *)
Inductive Item : Type :=
| Title (v : option string)
| Description (v : option string)
| DueDate (v : option date)
| IsCompleted (v : option bool).

Definition item_name (i : Item) : string :=
  match i with
  | Title _ => "title"
  | Description _ => "description"
  | DueDate _ => "due_date"
  | IsCompleted _ => "is_completed"
  end.

Definition dump_field {A : Type} (mk_item : option A -> Item)
    (f : option (option A)) : list Item :=
  match f with
  | Some v => [mk_item v]
  | None => []
  end.

(** [request.model_dump(exclude_unset=True)]: the fields that were set,
    in declaration order. *)
Definition model_dump_exclude_unset (r : t) : list Item :=
  (dump_field Title (title r) ++ dump_field Description (description r)
   ++ dump_field DueDate (due_date r) ++ dump_field IsCompleted (is_completed r))%list.

End TaskUpdate.

(** ** routes/tasks.py *)

Module Tasks.
Import Errors Database.

(** The outcome of a handler with the session it leaves behind. *)
Definition Handler (A : Type) : Type := Session -> (Raised + A) * Session.

(** [not s.strip()]: nothing but whitespace. *)
Definition blank (s : string) : bool := String.eqb (Py.strip s) "".

(** The ownership filter of the single-task queries:
    [where(Task.id == task_id, Task.user_id == current_user_id)]. *)
Definition owned_by (task_id current_user_id : string) (t : Task.t) : bool :=
  String.eqb (Task.id t) task_id && String.eqb (Task.user_id t) current_user_id.

(** [get_tasks]; [order] is the order in which the engine returns the
    rows. *)
Definition get_tasks (order : RowOrder) (current_user_id : string)
    : Handler (list Task.t) :=
  fun session =>
    (inr (all order (fun t => String.eqb (Task.user_id t) current_user_id)
            (tasks session)),
     session).

(** [get_task]. *)
Definition get_task (task_id current_user_id : string) : Handler Task.t :=
  fun session =>
    match first (owned_by task_id current_user_id) (tasks session) with
    | None => (inl (raise_not_found "Task not found"), session)
    | Some task => (inr task, session)
    end.

(** [create_task]; [new_id] is the uuid the [Task] constructor draws,
    [now1] and [now2] are the two readings of [datetime.utcnow()]. *)
Definition create_task (new_id : string) (now1 now2 : datetime)
    (request : TaskCreate.t) (current_user_id : string) : Handler Task.t :=
  fun session =>
    if String.eqb (TaskCreate.title request) "" || blank (TaskCreate.title request)
    then (inl (raise_bad_request "Title is required" None), session)
    else
      let new_task :=
        Task.mk new_id
          current_user_id
          (Some (TaskCreate.title request))
          (TaskCreate.description request)
          (TaskCreate.due_date request)
          (Some (TaskCreate.is_completed request))
          now1
          now2 in
      match insert_task session new_task with
      | None => (inl RaiseOther, session)
      | Some session' => (inr new_task, session')
      end.

(** [setattr(task, field, value)] for one dumped item. *)
Definition setattr (task : Task.t) (i : TaskUpdate.Item) : Task.t :=
  match i with
  | TaskUpdate.Title v =>
      Task.mk (Task.id task) (Task.user_id task) v (Task.description task)
        (Task.due_date task) (Task.is_completed task)
        (Task.created_at task) (Task.updated_at task)
  | TaskUpdate.Description v =>
      Task.mk (Task.id task) (Task.user_id task) (Task.title task) v
        (Task.due_date task) (Task.is_completed task)
        (Task.created_at task) (Task.updated_at task)
  | TaskUpdate.DueDate v =>
      Task.mk (Task.id task) (Task.user_id task) (Task.title task)
        (Task.description task) v (Task.is_completed task)
        (Task.created_at task) (Task.updated_at task)
  | TaskUpdate.IsCompleted v =>
      Task.mk (Task.id task) (Task.user_id task) (Task.title task)
        (Task.description task) (Task.due_date task) v
        (Task.created_at task) (Task.updated_at task)
  end.

(** [task.updated_at = value]. *)
Definition set_updated_at (task : Task.t) (value : datetime) : Task.t :=
  Task.mk (Task.id task) (Task.user_id task) (Task.title task)
    (Task.description task) (Task.due_date task) (Task.is_completed task)
    (Task.created_at task) value.

(** The loop [for field, value in update_data.items(): setattr(...)]. *)
Definition apply_updates (task : Task.t) (update_data : list TaskUpdate.Item)
    : Task.t :=
  fold_left setattr update_data task.

(** [update_task]; [now] is the reading of [datetime.utcnow()]. *)
Definition update_task (now : datetime) (task_id : string)
    (request : TaskUpdate.t) (current_user_id : string) : Handler Task.t :=
  fun session =>
    match first (owned_by task_id current_user_id) (tasks session) with
    | None => (inl (raise_not_found "Task not found"), session)
    | Some task =>
        let update_data := TaskUpdate.model_dump_exclude_unset request in
        match update_data with
        | [] => (inl (raise_bad_request "At least one field required" None), session)
        | _ =>
            let task := apply_updates task update_data in
            let task := set_updated_at task now in
            match update_task_row session task with
            | None => (inl RaiseOther, session)
            | Some session' => (inr task, session')
            end
        end
    end.

(** [delete_task]; the value returned is the confirmation message. *)
Definition delete_task (task_id current_user_id : string) : Handler string :=
  fun session =>
    match first (owned_by task_id current_user_id) (tasks session) with
    | None => (inl (raise_not_found "Task not found"), session)
    | Some task =>
        (inr "Task deleted successfully", delete_task_row session task)
    end.

End Tasks.

(** ** schemas/auth.py *)

Module RegisterRequest.
(** A validated registration request. *)
Record t : Type := mk { email : string; password : string }.
End RegisterRequest.

Module LoginRequest.
(** A validated login request. *)
Record t : Type := mk { email : string; password : string }.
End LoginRequest.

Module AuthResponse.
(** [AuthResponse(user=UserResponse(id, email), token)]. *)
Record t : Type := mk { user_id : string; user_email : string; token : string }.
End AuthResponse.

(** ** routes/auth.py *)

Module Auth.
Import Errors Database.

Definition Handler (A : Type) : Type := Session -> (Raised + A) * Session.

(** The exception [login] raises on every failure. *)
Definition invalid_credentials : Raised :=
  RaiseHTTP (mkHTTPException 401
    (DetailDict [("error", JStr "INVALID_CREDENTIALS");
                 ("message", JStr "Invalid email or password")])).

Section Routes.

Variable jose : Jwt.Jose.
Variable bcrypt : Password.Bcrypt.
Variable settings : Config.Settings.
Variable utc_offset : datetime -> option Z.

(** [register]; [rand] is the randomness of the salt, [new_id] the
    uuid of the new row, [now_row] and [now_token] the readings of
    [datetime.utcnow()] for the row and for the token. The row is
    committed before the token is issued: an exception raised by
    [create_access_token] leaves it in the table. *)
Definition register (rand new_id : string) (now_row now_token : datetime)
    (request : RegisterRequest.t) : Handler AuthResponse.t :=
  fun session =>
    let existing_user :=
      first (fun u => String.eqb (User.email u) (RegisterRequest.email request))
            (users session) in
    match existing_user with
    | Some _ => (inl (raise_conflict "Email already registered"), session)
    | None =>
        match Password.hash_password bcrypt rand (RegisterRequest.password request) with
        | inl _ => (inl RaiseOther, session)
        | inr password_hash =>
            let new_user :=
              User.mk new_id (RegisterRequest.email request) password_hash now_row in
            match insert_user session new_user with
            | None => (inl RaiseOther, session)
            | Some session' =>
                match Jwt.create_access_token jose settings utc_offset now_token
                        (User.id new_user) (User.email new_user) with
                | inl e => (inl e, session')
                | inr token =>
                    (inr (AuthResponse.mk (User.id new_user) (User.email new_user)
                            token),
                     session')
                end
            end
        end
    end.

(** [login]; [now] is the reading of [datetime.utcnow()] for the
    token. *)
Definition login (now : datetime) (request : LoginRequest.t)
    : Handler AuthResponse.t :=
  fun session =>
    let user :=
      first (fun u => String.eqb (User.email u) (LoginRequest.email request))
            (users session) in
    match user with
    | None => (inl invalid_credentials, session)
    | Some user =>
        if negb (Password.verify_password bcrypt (LoginRequest.password request)
                   (User.password_hash user))
        then (inl invalid_credentials, session)
        else
          match Jwt.create_access_token jose settings utc_offset now
                  (User.id user) (User.email user) with
          | inl e => (inl e, session)
          | inr token =>
              (inr (AuthResponse.mk (User.id user) (User.email user) token), session)
          end
    end.

End Routes.

(** [logout]: runs behind the authentication gate and only confirms. *)
Definition logout (current_user_id : string) : string := "Logged out successfully".

End Auth.

(** * Properties *)

(** ** Vocabulary of the statements *)

Module Spec.
Import Errors Database.

(** No row of [tasks] has identifier [task_id] and owner [uid]: the
    task does not exist, or it belongs to someone else. *)
Definition no_owned (task_id uid : string) (s : Session) : Prop :=
  forall t, In t (tasks s) -> Task.id t = task_id -> Task.user_id t <> uid.

(** Some row of [tasks] has identifier [task_id] and owner [uid]. *)
Definition has_owned (task_id uid : string) (s : Session) : Prop :=
  exists t, In t (tasks s) /\ Task.id t = task_id /\ Task.user_id t = uid.

(** The rows of [tasks] that do not belong to [uid]. *)
Definition foreign_rows (uid : string) (s : Session) : list Task.t :=
  filter (fun t => negb (String.eqb (Task.user_id t) uid)) (tasks s).

(** Going from [s] to [s'] changed no user and no task of another
    owner than [uid]. *)
Definition others_untouched (uid : string) (s s' : Session) : Prop :=
  users s' = users s /\ foreign_rows uid s' = foreign_rows uid s.

(** An error outcome that is UNAUTHORIZED: status 401 with that
    error code. *)
Definition unauthorized (r : Raised) : Prop :=
  let '(status, code, _) := outcome r in
  status = 401 /\ code = JStr "UNAUTHORIZED".

(** The token library signs [claims] to [token] and accepts it back,
    under the same key and algorithm, finding nothing wrong with the
    claims [aud], [iss], [sub], [jti] and [at_hash]. *)
Definition signs_and_accepts (lib : Jwt.Jose) (claims : Dict) (key alg token : string)
    : Prop :=
  Jwt.jws_sign lib claims key alg = Some token
  /\ Jwt.jws_verify lib token key [alg] = Jwt.Verified claims
  /\ Jwt.claims_ok lib claims = true.



(** A token as a header carries it: not empty, no whitespace around
    it. *)
Definition bare (token : string) : Prop :=
  token <> "" /\ Py.strip token = token.

(** The lifetime of a token issued at [now], in seconds. *)
Definition lifetime (settings : Config.Settings) : Z :=
  3600 * Config.jwt_expiration_hours settings.

(** The uniform not-found outcome. *)
Definition not_found : Raised := raise_not_found "Task not found".

(** Every task belongs to a row of [users] (the foreign key). *)
Definition tasks_fk (s : Session) : Prop :=
  forall t, In t (tasks s) -> exists u, In u (users s) /\ User.id u = Task.user_id t.

(** Every task has its NOT NULL columns filled. *)
Definition tasks_filled (s : Session) : Prop :=
  forall t, In t (tasks s) -> task_not_null t = true.

(** The primary key and the unique e-mail of [users]. *)
Definition users_pk (s : Session) : Prop := NoDup (map User.id (users s)).
Definition users_unique_email (s : Session) : Prop := NoDup (map User.email (users s)).

(** The constraints the schema puts on a stored session. *)
Definition db_invariant (s : Session) : Prop :=
  tasks_pk s /\ tasks_fk s /\ tasks_filled s /\ users_pk s /\ users_unique_email s.

(** Whether a string contains a space. *)
Fixpoint has_space (s : string) : bool :=
  match s with
  | EmptyString => false
  | String c rest => Ascii.eqb c " " || has_space rest
  end.

End Spec.

(** ** Concrete environments, used to run the definitions *)

Module Fixtures.
Import Database.

Definition alice : User.t := User.mk "u-alice" "alice@example.com" "$2b$12$saltsaltsaltsaltsalt22pw-alice" 10.
Definition bob : User.t := User.mk "u-bob" "bob@example.com" "$2b$12$saltsaltsaltsaltsalt22pw-bob" 11.

Definition task_a : Task.t :=
    Task.mk "t-1" "u-alice" (Some "Buy groceries") (Some "Milk, eggs, bread")
      (Some 20500) (Some false) 100 100.
Definition task_b : Task.t :=
    Task.mk "t-2" "u-bob" (Some "Pay rent") None None (Some false) 120 130.

Definition session0 : Session := mkSession [alice; bob] [task_a; task_b].

Definition settings0 : Config.Settings := Config.default_settings "0123456789abcdef0123456789abcdef".

(** A server whose local time is UTC. *)
Definition utc : datetime -> option Z := fun _ => Some 0.

(** One-hour tokens, and a server two hours east of UTC. *)
Definition settings_1h : Config.Settings :=
  Config.mkSettings "0123456789abcdef0123456789abcdef" "HS256" 1.
Definition utc_plus_2 : datetime -> option Z := fun _ => Some 7200.

(** A lifetime that leaves the range of [datetime]. *)
Definition settings_far : Config.Settings :=
  Config.mkSettings "0123456789abcdef0123456789abcdef" "HS256" 99999999999.


Definition claims_exp_null : Dict := [("sub", JStr "user-123"); ("exp", JNull)].

(** [int(s)] for a plain run of decimal digits. *)
Fixpoint digits (s : string) (acc : Z) : option Z :=
  match s with
  | EmptyString => Some acc
  | String c rest =>
      let n := nat_of_ascii c in
      if ((48 <=? n) && (n <=? 57))%nat
      then digits rest (10 * acc + Z.of_nat (n - 48))
      else None
  end.
Definition decimal (s : string) : option Z :=
  match s with
  | EmptyString => None
  | _ => digits s 0
  end.

(** A token library over a single known token: it signs every payload
    of the key to one string and accepts that string back. *)
Definition one_token_jose (claims : Dict) : Jwt.Jose :=
  Jwt.mkJose
    (fun _ key _ => Some ("signed." ++ key))
    (fun token key algorithms =>
       if String.eqb token ("signed." ++ key)
          && existsb (String.eqb "HS256") algorithms
       then Jwt.Verified claims else Jwt.Rejected)
    decimal
    (fun _ => true).

(** Two orders in which the engine may return rows. *)
Definition insertion_order : RowOrder :=
  mkRowOrder (fun _ rows => rows) (fun _ rows => Permutation_refl rows).
Definition reverse_order : RowOrder :=
  mkRowOrder (fun _ rows => rev rows)
    (fun _ rows => Permutation_sym (Permutation_rev rows)).

(** Two passwords of 73 bytes that share their first 72. *)
Definition long_password (last : string) : string :=
  "aaaaaaaaaaaaaaaaaaaaaaaaaaaaaaaaaaaaaaaaaaaaaaaaaaaaaaaaaaaaaaaaaaaaaaaa" ++ last.

(** A password library whose digest is the password itself. *)
Definition plain_bcrypt (rejects_long : bool) : Password.Bcrypt :=
  Password.mkBcrypt (fun password _ => password)
    (fun salt => String.prefix "$2b$" salt) rejects_long.

End Fixtures.

(** ** Owner isolation of the single-task operations *)

Section OwnerIsolation.
Import Errors Database Tasks Spec.

Lemma first_some {A : Type} (p : A -> bool) (rows : list A) (a : A) :
    first p rows = Some a -> In a rows /\ p a = true.
Proof.
    unfold first. intros H.
    assert (In a (filter p rows)) as Hin.
    { destruct (filter p rows); simpl in H; inversion H; subst; now left. }
    now apply filter_In in Hin.
Qed.

Lemma first_none {A : Type} (p : A -> bool) (rows : list A) :
    first p rows = None -> forall a, In a rows -> p a = false.
Proof.
    unfold first. intros H a Hin.
    destruct (p a) eqn:Hp; [|reflexivity].
    assert (In a (filter p rows)) as Hf by (apply filter_In; split; assumption).
    destruct (filter p rows); [contradiction | discriminate].
Qed.

Lemma owned_by_true (task_id uid : string) (t : Task.t) :
    owned_by task_id uid t = true <-> Task.id t = task_id /\ Task.user_id t = uid.
Proof.
    unfold owned_by. rewrite andb_true_iff, !String.eqb_eq. tauto.
Qed.

Lemma first_owned_none (task_id uid : string) (s : Session) :
    first (owned_by task_id uid) (tasks s) = None <-> no_owned task_id uid s.
Proof.
    split.
    - intros H t Hin Hid Huid.
      pose proof (first_none _ _ H t Hin) as Hf.
      assert (owned_by task_id uid t = true) by (apply owned_by_true; auto).
      congruence.
    - intros Hno. destruct (first _ _) as [t|] eqn:Hf; [|reflexivity].
      apply first_some in Hf as [Hin Hp]. apply owned_by_true in Hp as [Hid Hu].
      exfalso. exact (Hno t Hin Hid Hu).
Qed.

Lemma first_owned_some (task_id uid : string) (s : Session) (t : Task.t) :
    first (owned_by task_id uid) (tasks s) = Some t ->
    In t (tasks s) /\ Task.id t = task_id /\ Task.user_id t = uid.
Proof.
    intros H. apply first_some in H as [Hin Hp].
    apply owned_by_true in Hp. tauto.
Qed.

Lemma not_found_outcome :
    outcome not_found = (404, JStr "NOT_FOUND", JStr "Task not found").
Proof. reflexivity. Qed.

Lemma setattr_keeps_key (t : Task.t) (i : TaskUpdate.Item) :
    Task.id (setattr t i) = Task.id t /\ Task.user_id (setattr t i) = Task.user_id t
    /\ Task.created_at (setattr t i) = Task.created_at t.
Proof. destruct i; simpl; auto. Qed.

Lemma apply_updates_keeps_key (items : list TaskUpdate.Item) (t : Task.t) :
    Task.id (apply_updates t items) = Task.id t
    /\ Task.user_id (apply_updates t items) = Task.user_id t
    /\ Task.created_at (apply_updates t items) = Task.created_at t.
Proof.
    unfold apply_updates. revert t.
    induction items as [|i items IH]; intros t; simpl; [auto|].
    destruct (IH (setattr t i)) as (H1 & H2 & H3).
    destruct (setattr_keeps_key t i) as (K1 & K2 & K3).
    repeat split; congruence.
Qed.

(** Under the primary key, every row named like an owned row is that
    owner's. *)
Lemma pk_same_owner (s : Session) (t : Task.t) :
  tasks_pk s -> In t (tasks s) ->
  forall r, In r (tasks s) -> Task.id r = Task.id t -> Task.user_id r = Task.user_id t.
Proof.
  unfold tasks_pk. induction (tasks s) as [|x rows IH]; simpl; [tauto|].
  intros Hnd Hin r Hr Hid. inversion Hnd as [|? ? Hnotin Hnd']; subst.
  destruct Hin as [->|Hin], Hr as [->|Hr]; auto.
  - exfalso. apply Hnotin. rewrite <- Hid. now apply in_map.
  - exfalso. apply Hnotin. rewrite Hid. now apply in_map.
Qed.

Lemma replace_keeps_foreign (uid : string) (t' : Task.t) (rows : list Task.t) :
  Task.user_id t' = uid ->
  (forall r, In r rows -> Task.id r = Task.id t' -> Task.user_id r = uid) ->
  filter (fun t => negb (String.eqb (Task.user_id t) uid))
    (map (fun r => if String.eqb (Task.id r) (Task.id t') then t' else r) rows)
  = filter (fun t => negb (String.eqb (Task.user_id t) uid)) rows.
Proof.
  intros Hu. induction rows as [|x rows IH]; intros Hrows; simpl; [reflexivity|].
  rewrite IH by (intros r Hr; apply Hrows; now right).
  destruct (String.eqb (Task.id x) (Task.id t')) eqn:Hid.
  - apply String.eqb_eq in Hid.
    rewrite (Hrows x (or_introl eq_refl) Hid), Hu, String.eqb_refl. reflexivity.
  - reflexivity.
Qed.

Lemma remove_keeps_foreign (uid : string) (t' : Task.t) (rows : list Task.t) :
  (forall r, In r rows -> Task.id r = Task.id t' -> Task.user_id r = uid) ->
  filter (fun t => negb (String.eqb (Task.user_id t) uid))
    (filter (fun r => negb (String.eqb (Task.id r) (Task.id t'))) rows)
  = filter (fun t => negb (String.eqb (Task.user_id t) uid)) rows.
Proof.
  induction rows as [|x rows IH]; intros Hrows; simpl; [reflexivity|].
  specialize (IH (fun r Hr => Hrows r (or_intror Hr))).
  destruct (String.eqb (Task.id x) (Task.id t')) eqn:Hid; simpl.
  - apply String.eqb_eq in Hid.
    rewrite (Hrows x (or_introl eq_refl) Hid), String.eqb_refl. simpl. exact IH.
  - rewrite IH. reflexivity.
Qed.

End OwnerIsolation.

Section OwnerIsolationTheorem.
Import Errors Database Tasks Spec.

Lemma get_task_spec (task_id uid : string) (s : Session) :
  match get_task task_id uid s with
  | (inr t, s') =>
      In t (tasks s) /\ Task.id t = task_id /\ Task.user_id t = uid /\ s' = s
  | (inl e, s') => no_owned task_id uid s /\ e = not_found /\ s' = s
  end.
Proof.
  unfold get_task.
  destruct (first (owned_by task_id uid) (tasks s)) as [t|] eqn:Hf.
  - apply first_owned_some in Hf. tauto.
  - apply first_owned_none in Hf. auto.
Qed.

Lemma update_task_spec (now : datetime) (task_id uid : string)
    (req : TaskUpdate.t) (s : Session) :
  tasks_pk s ->
  match update_task now task_id req uid s with
  | (inr t', s') =>
      has_owned task_id uid s /\ Task.id t' = task_id /\ Task.user_id t' = uid
      /\ others_untouched uid s s'
  | (inl e, s') => (no_owned task_id uid s <-> e = not_found) /\ s' = s
  end.
Proof.
  intros Hpk. unfold update_task.
  destruct (first (owned_by task_id uid) (tasks s)) as [t|] eqn:Hf.
  - pose proof (first_owned_some _ _ _ _ Hf) as (Hin & Hid & Hu).
    assert (~ no_owned task_id uid s) as Hex by (intros Hno; exact (Hno t Hin Hid Hu)).
    destruct (TaskUpdate.model_dump_exclude_unset req) as [|i items] eqn:Hd.
    + split; [|reflexivity]. split; [tauto | discriminate].
    + set (t1 := set_updated_at (apply_updates t (i :: items)) now).
      destruct (apply_updates_keeps_key (i :: items) t) as (K1 & K2 & _).
      assert (Task.id t1 = task_id /\ Task.user_id t1 = uid) as [I1 U1]
        by (split;
            [ change (Task.id t1) with (Task.id (apply_updates t (i :: items)))
            | change (Task.user_id t1) with (Task.user_id (apply_updates t (i :: items))) ];
            congruence).
      unfold update_task_row. destruct (negb (task_not_null t1)).
      * split; [|reflexivity]. split; [tauto | discriminate].
      * split; [exists t; auto|]. split; [exact I1|]. split; [exact U1|].
        split; [reflexivity|].
        unfold foreign_rows. cbn [tasks]. apply replace_keeps_foreign; [exact U1|].
        intros r Hr Hrid. rewrite <- Hu.
        apply (pk_same_owner s t Hpk Hin r Hr). congruence.
  - split; [|reflexivity]. apply first_owned_none in Hf. split; auto.
Qed.

Lemma delete_task_spec (task_id uid : string) (s : Session) :
  tasks_pk s ->
  match delete_task task_id uid s with
  | (inr _, s') => has_owned task_id uid s /\ others_untouched uid s s'
  | (inl e, s') => no_owned task_id uid s /\ e = not_found /\ s' = s
  end.
Proof.
  intros Hpk. unfold delete_task.
  destruct (first (owned_by task_id uid) (tasks s)) as [t|] eqn:Hf.
  - pose proof (first_owned_some _ _ _ _ Hf) as (Hin & Hid & Hu).
    split; [exists t; auto|]. split; [reflexivity|].
    unfold foreign_rows. cbn [tasks delete_task_row]. apply remove_keeps_foreign.
    intros r Hr Hrid. rewrite <- Hu. apply (pk_same_owner s t Hpk Hin r Hr Hrid).
  - apply first_owned_none in Hf. auto.
Qed.

(** C1. Owner isolation. Read-one, update and delete look a task up by
    the conjunction of its identifier and the owner being the trusted
    identity [uid]. A task is returned or changed only when such a row
    exists, the task that comes back has that identifier and that owner,
    and an update or a delete leaves every task of another owner as it
    was. When no row satisfies the conjunction the three operations fail
    with the one not-found outcome (404, NOT_FOUND) and change nothing,
    so that a task that does not exist ([s1]) and a task of another
    user ([s2]) produce the same outcome. *)
Theorem owner_isolation (now : datetime) (task_id uid : string)
    (req : TaskUpdate.t) (s : Session) (PK : tasks_pk s) :
  match get_task task_id uid s with
  | (inr t, s') =>
      In t (tasks s) /\ Task.id t = task_id /\ Task.user_id t = uid /\ s' = s
  | (inl e, s') => no_owned task_id uid s /\ e = not_found /\ s' = s
  end
  /\ match update_task now task_id req uid s with
     | (inr t', s') =>
         has_owned task_id uid s /\ Task.id t' = task_id /\ Task.user_id t' = uid
         /\ others_untouched uid s s'
     | (inl e, s') => (no_owned task_id uid s <-> e = not_found) /\ s' = s
     end
  /\ match delete_task task_id uid s with
     | (inr _, s') => has_owned task_id uid s /\ others_untouched uid s s'
     | (inl e, s') => no_owned task_id uid s /\ e = not_found /\ s' = s
     end
  /\ outcome not_found = (404, JStr "NOT_FOUND", JStr "Task not found")
  /\ (forall s1 s2 : Session,
        (forall t, In t (tasks s1) -> Task.id t <> task_id) ->
        (forall t, In t (tasks s2) -> Task.id t = task_id -> Task.user_id t <> uid) ->
        fst (get_task task_id uid s1) = inl not_found
        /\ fst (get_task task_id uid s2) = inl not_found
        /\ fst (update_task now task_id req uid s1) = inl not_found
        /\ fst (update_task now task_id req uid s2) = inl not_found
        /\ fst (delete_task task_id uid s1) = inl not_found
        /\ fst (delete_task task_id uid s2) = inl not_found).
Proof.
  split; [apply get_task_spec|].
  split; [now apply update_task_spec|].
  split; [now apply delete_task_spec|].
  split; [apply not_found_outcome|].
  intros s1 s2 H1 H2.
  assert (no_owned task_id uid s1) as N1 by (intros t Hin Hid _; exact (H1 t Hin Hid)).
  assert (no_owned task_id uid s2) as N2 by exact H2.
  apply first_owned_none in N1, N2.
  unfold get_task, update_task, delete_task. rewrite N1, N2. simpl. tauto.
Qed.

(** The theorem at work: Alice asks for Bob's task [t-2], and for a
    task that does not exist. *)
Lemma owner_isolation_witness :
  tasks_pk Fixtures.session0
  /\ fst (get_task "t-2" "u-alice" Fixtures.session0) = inl not_found
  /\ fst (get_task "t-9" "u-alice" Fixtures.session0) = inl not_found.
Proof.
  assert (tasks_pk Fixtures.session0) as PK.
  { unfold tasks_pk; simpl. repeat constructor; simpl; intuition discriminate. }
  split; [exact PK|].
  pose proof (owner_isolation 0 "t-2" "u-alice"
                (TaskUpdate.mk None None None None) Fixtures.session0 PK) as H.
  destruct H as (_ & _ & _ & _ & H).
  specialize (H (mkSession [] []) Fixtures.session0).
  destruct H as (_ & H2 & _).
  - simpl; tauto.
  - simpl. intros t [<-|[<-|[]]]; simpl; intros; discriminate.
  - split; [exact H2|]. reflexivity.
Defined.

End OwnerIsolationTheorem.

(** ** The authentication gate *)

Section AuthenticationGate.
Import Errors Dependencies Spec.

Variable lib : Jwt.Jose.
Variable settings : Config.Settings.

Lemma raise_unauthorized_is_unauthorized (msg : string) :
  unauthorized (raise_unauthorized msg).
Proof. unfold unauthorized; simpl. split; reflexivity. Qed.

(** What the bearer extractor raises is answered with the framework's
    status, under the error code [errors.py] maps this status to. *)
Lemma HTTPBearer_error_outcome (fw : Framework) (authorization : option string)
    (e : Raised) :
  HTTPBearer fw true authorization = inl e ->
  exists msg, outcome e
    = (bearer_status fw, JStr (_get_error_code_from_status (bearer_status fw)), JStr msg).
Proof.
  unfold HTTPBearer.
  destruct (get_authorization_scheme_param fw authorization) as [sch cred].
  destruct (negb _).
  - intros H; inversion H; subst. now exists "Not authenticated".
  - destruct (negb _); intros H; inversion H; subst.
    unfold outcome, error_response, http_exception_handler. simpl.
    eexists. reflexivity.
Qed.

Lemma HTTPBearer_auto_error (fw : Framework) (authorization : option string) :
  HTTPBearer fw true authorization <> inr None.
Proof.
  unfold HTTPBearer.
  destruct (get_authorization_scheme_param fw authorization) as [sch cred].
  destruct (negb _); [discriminate|]. destruct (negb _); discriminate.
Qed.

(** A verified payload whose [exp] is [null], a list or an object, and
    which has no [iat] and no [nbf], makes [verify_token] raise. *)
Lemma verify_token_raises (now : datetime) (token : string) (claims : Dict)
    (v : JsonValue) :
  Jwt.jws_verify lib token (Config.secret_key settings)
    [Config.jwt_algorithm settings] = Jwt.Verified claims ->
  dict_get claims "iat" = None -> dict_get claims "nbf" = None ->
  dict_get claims "exp" = Some v -> Jwt.py_int lib v = Jwt.IntTypeError ->
  Jwt.verify_token lib settings now token = inl RaiseOther.
Proof.
  intros Hv Hiat Hnbf Hexp Hint.
  unfold Jwt.verify_token, Jwt.jwt_decode, Jwt._validate_iat, Jwt._validate_nbf,
    Jwt._validate_exp, Jwt.time_claim.
  now rewrite Hv, Hiat, Hnbf, Hexp, Hint.
Qed.

(** C2. The code breaks the stated outcomes of the gate. A bearer
    token that carries a valid signature over a payload without [iat]
    and [nbf] whose [exp] is [null] is neither rejected as UNAUTHORIZED
    nor turned into an identity: [jwt.decode] raises a [TypeError],
    which [verify_token] (it catches [JWTError] only) and the gate let
    through, and the request is answered 500 SERVER_ERROR. Besides,
    with FastAPI up to 0.121 a request without credential is answered
    403 FORBIDDEN. *)
Theorem gate_lets_type_error_through (fw : Framework) (now : datetime)
    (authorization : option string) (creds : HTTPAuthorizationCredentials)
    (claims : Dict)
    (Hbearer : HTTPBearer fw true authorization = inr (Some creds))
    (Hsigned : Jwt.jws_verify lib (credentials creds) (Config.secret_key settings)
                 [Config.jwt_algorithm settings] = Jwt.Verified claims)
    (Hiat : dict_get claims "iat" = None)
    (Hnbf : dict_get claims "nbf" = None)
    (Hexp : dict_get claims "exp" = Some JNull) :
  protected_gate lib settings fw now authorization = inl RaiseOther
  /\ outcome RaiseOther = (500, JStr "SERVER_ERROR", JStr "Something went wrong")
  /\ ~ unauthorized RaiseOther
  /\ exists e,
       protected_gate lib settings fastapi_0_121 now None = inl e
       /\ outcome e = (403, JStr "FORBIDDEN", JStr "Not authenticated").
Proof.
  split; [|split; [reflexivity|split]].
  - unfold protected_gate. rewrite Hbearer. unfold get_current_user.
    now rewrite (verify_token_raises now _ claims JNull Hsigned Hiat Hnbf Hexp eq_refl).
  - unfold unauthorized. simpl. intros [H _]. discriminate H.
  - eexists. split; reflexivity.
Qed.

End AuthenticationGate.

(** The theorem at work: a token signed over [{"sub": "user-123",
    "exp": null}] is answered 500. *)
Lemma gate_lets_type_error_through_witness :
  let lib := Fixtures.one_token_jose Fixtures.claims_exp_null in
  let header := Some "Bearer signed.0123456789abcdef0123456789abcdef" in
  Dependencies.HTTPBearer Dependencies.fastapi_recent true header
  = inr (Some (Dependencies.mkCredentials "Bearer"
                 "signed.0123456789abcdef0123456789abcdef"))
  /\ Errors.outcome
       match Dependencies.protected_gate lib Fixtures.settings0
               Dependencies.fastapi_recent 1770000000 header with
       | inl e => e
       | inr _ => Errors.raise_unauthorized ""
       end
     = (500, JStr "SERVER_ERROR", JStr "Something went wrong").
Proof.
  intros lib header.
  assert (Dependencies.HTTPBearer Dependencies.fastapi_recent true header
          = inr (Some (Dependencies.mkCredentials "Bearer"
                         "signed.0123456789abcdef0123456789abcdef"))) as Hb
    by reflexivity.
  split; [exact Hb|].
  destruct (gate_lets_type_error_through lib Fixtures.settings0
              Dependencies.fastapi_recent 1770000000 header _
              Fixtures.claims_exp_null Hb eq_refl eq_refl eq_refl eq_refl)
    as (Hgate & Hout & _).
  rewrite Hgate. exact Hout.
Defined.

(** ** The token service *)

Section TokenServiceLemmas.
Import Jwt Spec.

Variable lib : Jose.
Variable settings : Config.Settings.

(** A verified payload with an integer [iat], no [nbf] and an integer
    [exp] that is not past is returned. *)
Lemma verify_token_accepts (now : datetime) (token : string) (claims : Dict)
    (iat exp : Z) :
  jws_verify lib token (Config.secret_key settings) [Config.jwt_algorithm settings]
    = Verified claims ->
  claims_ok lib claims = true ->
  dict_get claims "iat" = Some (JInt iat) ->
  dict_get claims "nbf" = None ->
  dict_get claims "exp" = Some (JInt exp) ->
  now <= exp ->
  verify_token lib settings now token = inr (Some claims).
Proof.
  intros Hv Hc Hi Hn He Hle.
  unfold verify_token, jwt_decode, _validate_iat, _validate_nbf, _validate_exp,
    time_claim.
  rewrite Hv, Hi, Hn, He. simpl.
  destruct (exp <? now) eqn:Hlt; [apply Z.ltb_lt in Hlt; lia|].
  now rewrite Hc.
Qed.

(** A verified payload whose [iat] and [nbf] do not make [int] raise a
    [TypeError] and whose [exp] is past gives [None]. *)
Lemma verify_token_expired (now : datetime) (token : string) (claims : Dict) (exp : Z) :
  jws_verify lib token (Config.secret_key settings) [Config.jwt_algorithm settings]
    = Verified claims ->
  time_claim lib claims "iat" <> inl OtherException ->
  time_claim lib claims "nbf" <> inl OtherException ->
  time_claim lib claims "exp" = inr (Some exp) ->
  exp < now ->
  verify_token lib settings now token = inr None.
Proof.
  intros Hv Hi Hn He Hlt.
  unfold verify_token, jwt_decode, _validate_iat, _validate_nbf, _validate_exp.
  rewrite Hv, He. apply Z.ltb_lt in Hlt. rewrite Hlt.
  destruct (time_claim lib claims "iat") as [[e|]|i]; [reflexivity | contradiction|].
  destruct (time_claim lib claims "nbf") as [[e|]|[nbf|]];
    [reflexivity | contradiction | | reflexivity].
  destruct (now <? nbf); reflexivity.
Qed.

(** The payload an issue builds. *)
Lemma payload_claims (utc_offset : datetime -> option Z) (now : datetime)
    (s e : string) (payload : Dict) :
  access_token_payload settings utc_offset now s e = Some payload ->
  exists iat offset,
    utc_offset (now + lifetime settings) = Some offset
    /\ dict_get payload "sub" = Some (JStr s)
    /\ dict_get payload "email" = Some (JStr e)
    /\ dict_get payload "iat" = Some (JInt iat)
    /\ dict_get payload "nbf" = None
    /\ dict_get payload "exp" = Some (JInt (now + lifetime settings - offset))
    /\ payload <> [].
Proof.
  unfold access_token_payload, timestamp, lifetime.
  destruct (_ && _); [|discriminate].
  destruct (utc_offset now) as [o1|]; [|discriminate].
  destruct (utc_offset (now + 3600 * Config.jwt_expiration_hours settings)) as [o2|];
    [|discriminate].
  intros H. inversion H; subst. exists (now - o1), o2. repeat split. discriminate.
Qed.

(** What [create_access_token] did when it returned a token. *)
Lemma create_access_token_issued (utc_offset : datetime -> option Z) (now : datetime)
    (s e token : string) :
  create_access_token lib settings utc_offset now s e = inr token ->
  exists payload,
    access_token_payload settings utc_offset now s e = Some payload
    /\ jws_sign lib payload (Config.secret_key settings) (Config.jwt_algorithm settings)
       = Some token.
Proof.
  unfold create_access_token, jwt_encode.
  destruct (access_token_payload settings utc_offset now s e) as [payload|];
    [|discriminate].
  destruct (jws_sign lib payload _ _) as [t|] eqn:Hs; [|discriminate].
  intros H. inversion H; subst. now exists payload.
Qed.

Lemma time_claim_int (claims : Dict) (name : string) (z : Z) :
  dict_get claims name = Some (JInt z) -> time_claim lib claims name = inr (Some z).
Proof. intros H. unfold time_claim. now rewrite H. Qed.


Lemma time_claim_absent (claims : Dict) (name : string) :
  dict_get claims name = None -> time_claim lib claims name = inr None.
Proof. intros H. unfold time_claim. now rewrite H. Qed.

End TokenServiceLemmas.

Section TokenServiceTheorems.
Import Jwt Spec.

(** C3. The code breaks the round trip east of UTC. Let a token be
    issued for a subject and an e-mail under a lifetime that is
    positive but shorter than the host's offset from UTC, by a library
    that accepts back what it signed. The [exp] claim, taken with
    [datetime.utcnow().timestamp()], is the current time plus the
    lifetime minus that offset, a time already past: verified at the
    very second of its issue, with the same settings, the token is
    refused and [verify_token] returns [None]. *)
Theorem token_round_trip_east_of_utc (lib : Jose) (settings : Config.Settings)
    (utc_offset : datetime -> option Z) (now : datetime) (s e token : string)
    (payload : Dict) (offset : Z)
    (Hpayload : access_token_payload settings utc_offset now s e = Some payload)
    (Hlib : signs_and_accepts lib payload (Config.secret_key settings)
              (Config.jwt_algorithm settings) token)
    (Hoffset : utc_offset (now + lifetime settings) = Some offset)
    (Hpositive : 0 < lifetime settings)
    (Heast : lifetime settings < offset) :
  create_access_token lib settings utc_offset now s e = inr token
  /\ verify_token lib settings now token = inr None.
Proof.
  destruct Hlib as (Hsign & Hv & _).
  split.
  - unfold create_access_token, jwt_encode. now rewrite Hpayload, Hsign.
  - destruct (payload_claims settings utc_offset now s e payload Hpayload)
      as (iat & off & Hoff & _ & _ & Hiat & Hnbf & Hexp & _).
    rewrite Hoffset in Hoff. inversion Hoff; subst off.
    apply (verify_token_expired lib settings now token payload
             (now + lifetime settings - offset) Hv).
    + rewrite (time_claim_int lib payload "iat" iat Hiat). discriminate.
    + rewrite (time_claim_absent lib payload "nbf" Hnbf). discriminate.
    + now apply time_claim_int.
    + lia.
Qed.

(** The theorem at work: one-hour tokens on a host two hours east of
    UTC. *)
Lemma token_round_trip_east_of_utc_witness :
  let now := 1770000000 in
  let payload := [ ("sub", JStr "user-123"); ("email", JStr "test@example.com");
                   ("iat", JInt (now - 7200)); ("exp", JInt (now + 3600 - 7200)) ] in
  let lib := Fixtures.one_token_jose payload in
  let token := "signed.0123456789abcdef0123456789abcdef" in
  create_access_token lib Fixtures.settings_1h Fixtures.utc_plus_2 now
    "user-123" "test@example.com" = inr token
  /\ verify_token lib Fixtures.settings_1h now token = inr None.
Proof.
  intros now payload lib token.
  apply (token_round_trip_east_of_utc lib Fixtures.settings_1h Fixtures.utc_plus_2 now
           "user-123" "test@example.com" token payload 7200).
  - reflexivity.
  - repeat split.
  - reflexivity.
  - reflexivity.
  - reflexivity.
Defined.




End TokenServiceTheorems.

(** ** Creating and updating tasks *)

Section TaskWrites.
Import Errors Database Tasks Spec.

(** The handler at work: Alice creates a task. *)
Example create_task_runs :
  create_task "t-3" 200 201 (TaskCreate.mk "Call mum" None None false) "u-alice"
    Fixtures.session0
  = (inr (Task.mk "t-3" "u-alice" (Some "Call mum") None None (Some false) 200 201),
     mkSession [Fixtures.alice; Fixtures.bob]
       [Fixtures.task_a; Fixtures.task_b;
        Task.mk "t-3" "u-alice" (Some "Call mum") None None (Some false) 200 201]).
Proof. reflexivity. Qed.

(** C5. Create ownership. A create request with a title that is not
    blank, processed under the trusted identity [uid] (a row of
    [users]) with a fresh identifier, creates a task: the handler
    returns it, its owner is [uid], it is appended to the table as the
    only change, and the row stored under the new identifier is that
    task, owned by [uid]. The request has no field for an owner: two
    requests that differ in whatever they carry, processed under the
    same identity, cannot lead to different owners, and every task a
    call returns under [uid] is owned by [uid]. *)
Theorem create_sets_owner (new_id : string) (now1 now2 : datetime)
    (request : TaskCreate.t) (uid : string) (s : Session)
    (Htitle : blank (TaskCreate.title request) = false)
    (Hfresh : forall r, In r (tasks s) -> Task.id r <> new_id)
    (Hcaller : exists u, In u (users s) /\ User.id u = uid) :
  let task := Task.mk new_id uid (Some (TaskCreate.title request))
                (TaskCreate.description request) (TaskCreate.due_date request)
                (Some (TaskCreate.is_completed request)) now1 now2 in
  let s' := mkSession (users s) (tasks s ++ [task]) in
  create_task new_id now1 now2 request uid s = (inr task, s')
  /\ Task.user_id task = uid
  /\ first (fun r => String.eqb (Task.id r) new_id) (tasks s') = Some task
  /\ (forall request',
        blank (TaskCreate.title request') = false ->
        exists task' s'',
          create_task new_id now1 now2 request' uid s = (inr task', s'')
          /\ Task.user_id task' = uid
          /\ first (fun r => String.eqb (Task.id r) new_id) (tasks s'') = Some task')
  /\ (forall new_id' now1' now2' request' s0 task' s0',
        create_task new_id' now1' now2' request' uid s0 = (inr task', s0') ->
        Task.user_id task' = uid
        /\ s0' = mkSession (users s0) (tasks s0 ++ [task'])).
Proof.
  assert (existsb (fun r => String.eqb (Task.id r) new_id) (tasks s) = false) as Hid.
  { destruct (existsb _ (tasks s)) eqn:E; [|reflexivity].
    apply existsb_exists in E as (r & Hin & Hr). apply String.eqb_eq in Hr.
    exfalso. exact (Hfresh r Hin Hr). }
  assert (existsb (fun u => String.eqb (User.id u) uid) (users s) = true) as Hu.
  { destruct Hcaller as (u & Hin & Hu). apply existsb_exists. exists u.
    split; [exact Hin | now apply String.eqb_eq]. }
  assert (forall rows : list Task.t,
            existsb (fun r => String.eqb (Task.id r) new_id) rows = false ->
            forall x, Task.id x = new_id ->
            first (fun r => String.eqb (Task.id r) new_id) (rows ++ [x]) = Some x)
    as Hlast.
  { intros rows. unfold first. induction rows as [|r rows IH]; simpl; intros E x Hx.
    - rewrite <- Hx, String.eqb_refl. reflexivity.
    - apply orb_false_iff in E as [E1 E2]. rewrite E1. now apply IH. }
  assert (forall req,
            blank (TaskCreate.title req) = false ->
            let task := Task.mk new_id uid (Some (TaskCreate.title req))
                          (TaskCreate.description req) (TaskCreate.due_date req)
                          (Some (TaskCreate.is_completed req)) now1 now2 in
            create_task new_id now1 now2 req uid s
            = (inr task, mkSession (users s) (tasks s ++ [task]))) as Hrun.
  { intros req Hb task. unfold create_task, insert_task. rewrite Hb.
    destruct (String.eqb (TaskCreate.title req) "") eqn:He.
    - apply String.eqb_eq in He. rewrite He in Hb. discriminate Hb.
    - cbn [orb Task.id Task.user_id]. rewrite Hid, Hu. reflexivity. }
  intros task s'. split; [exact (Hrun request Htitle)|]. split; [reflexivity|].
  split; [apply (Hlast (tasks s) Hid); reflexivity|]. split.
  - intros request' Hb. eexists. eexists. split; [exact (Hrun request' Hb)|].
    split; [reflexivity|]. apply (Hlast (tasks s) Hid). reflexivity.
  - intros i n1 n2 r s0 task' s0'. unfold create_task, insert_task.
    destruct (_ || _); [discriminate|].
    destruct (existsb _ (tasks s0)); [discriminate|].
    destruct (negb (existsb _ (users s0))); [discriminate|].
    destruct (negb (task_not_null _)); [discriminate|].
    intros H. inversion H; subst. split; reflexivity.
Qed.

Lemma dump_empty (req : TaskUpdate.t) :
  TaskUpdate.model_dump_exclude_unset req = []
  <-> req = TaskUpdate.mk None None None None.
Proof.
  destruct req as [[ti|] [de|] [du|] [co|]]; simpl; split; intros H;
    try discriminate; reflexivity.
Qed.

(** The task after the [setattr] loop: a field that was set takes the
    value of the request, a field that was not keeps its own. *)
Lemma apply_updates_fields (t : Task.t) (req : TaskUpdate.t) :
  let t' := apply_updates t (TaskUpdate.model_dump_exclude_unset req) in
  Task.title t' = match TaskUpdate.title req with Some v => v | None => Task.title t end
  /\ Task.description t'
     = match TaskUpdate.description req with Some v => v | None => Task.description t end
  /\ Task.due_date t'
     = match TaskUpdate.due_date req with Some v => v | None => Task.due_date t end
  /\ Task.is_completed t'
     = match TaskUpdate.is_completed req with Some v => v | None => Task.is_completed t end
  /\ Task.id t' = Task.id t /\ Task.user_id t' = Task.user_id t
  /\ Task.created_at t' = Task.created_at t
  /\ Task.updated_at t' = Task.updated_at t.
Proof.
  destruct req as [[ti|] [de|] [du|] [co|]]; simpl; repeat split.
Qed.

Lemma in_replaced (t t' : Task.t) (rows : list Task.t) :
  In t rows -> Task.id t' = Task.id t ->
  In t' (map (fun r => if String.eqb (Task.id r) (Task.id t') then t' else r) rows).
Proof.
  intros Hin Hid. apply in_map_iff. exists t. split; [|exact Hin].
  rewrite <- Hid, String.eqb_refl. reflexivity.
Qed.

(** The handler at work: Alice marks her task as completed at time
    500. *)
Example update_task_runs :
  fst (update_task 500 "t-1" (TaskUpdate.mk None None None (Some (Some true)))
         "u-alice" Fixtures.session0)
  = inr (Task.mk "t-1" "u-alice" (Some "Buy groceries") (Some "Milk, eggs, bread")
           (Some 20500) (Some true) 100 500).
Proof. reflexivity. Qed.

(** C7. Partial-update frame. Let the caller own the task [t] under
    [task_id]. A request with no field at all is refused with
    400 VALIDATION_ERROR and the session is left as it was. A request
    with at least one field, whose result fills the NOT NULL columns,
    succeeds: each field present in the request takes the value of the
    request, every other field (identifier, owner and [created_at]
    included) keeps the value it had, [updated_at] is the current time,
    and the row is stored in place of the old one. When the result
    would leave a NOT NULL column empty the commit fails and the session
    is left as it was. So every successful update had at least one
    field and returned that task. *)
Theorem partial_update_frame (now : datetime) (task_id uid : string)
    (req : TaskUpdate.t) (s : Session) (t : Task.t)
    (Hfound : first (owned_by task_id uid) (tasks s) = Some t) :
  let t' :=
    Task.mk (Task.id t) (Task.user_id t)
      (match TaskUpdate.title req with Some v => v | None => Task.title t end)
      (match TaskUpdate.description req with Some v => v | None => Task.description t end)
      (match TaskUpdate.due_date req with Some v => v | None => Task.due_date t end)
      (match TaskUpdate.is_completed req with
       | Some v => v | None => Task.is_completed t end)
      (Task.created_at t) now in
  let s' :=
    mkSession (users s)
      (map (fun r => if String.eqb (Task.id r) (Task.id t) then t' else r) (tasks s)) in
  (req = TaskUpdate.mk None None None None ->
   update_task now task_id req uid s
   = (inl (raise_bad_request "At least one field required" None), s)
   /\ outcome (raise_bad_request "At least one field required" None)
      = (400, JStr "VALIDATION_ERROR", JStr "At least one field required"))
  /\ (req <> TaskUpdate.mk None None None None ->
      task_not_null t' = true ->
      update_task now task_id req uid s = (inr t', s')
      /\ In t' (tasks s') /\ length (tasks s') = length (tasks s))
  /\ (req <> TaskUpdate.mk None None None None ->
      task_not_null t' = false ->
      update_task now task_id req uid s = (inl RaiseOther, s))
  /\ (forall result s'',
        update_task now task_id req uid s = (inr result, s'') ->
        req <> TaskUpdate.mk None None None None /\ result = t' /\ s'' = s').
Proof.
  intros t' s'.
  assert (req <> TaskUpdate.mk None None None None ->
          update_task now task_id req uid s
          = if task_not_null t' then (inr t', s') else (inl RaiseOther, s)) as Hrun.
  { intros Hne. unfold update_task. rewrite Hfound.
    assert (set_updated_at (apply_updates t (TaskUpdate.model_dump_exclude_unset req)) now
            = t') as Ht.
    { subst t'. destruct req as [[ti|] [de|] [du|] [co|]]; reflexivity. }
    destruct (TaskUpdate.model_dump_exclude_unset req) as [|i items] eqn:Hd.
    - apply dump_empty in Hd. contradiction.
    - rewrite Ht. unfold update_task_row.
      destruct (task_not_null t'); reflexivity. }
  split; [|split; [|split]].
  - intros ->. unfold update_task. rewrite Hfound. split; reflexivity.
  - intros Hne Hnn. rewrite (Hrun Hne), Hnn. split; [reflexivity|].
    split; [|apply length_map].
    apply first_some in Hfound as [Hin _].
    apply (in_replaced t t' (tasks s) Hin). reflexivity.
  - intros Hne Hnn. rewrite (Hrun Hne), Hnn. reflexivity.
  - intros result s'' Hres.
    assert (req <> TaskUpdate.mk None None None None) as Hne.
    { intros ->. unfold update_task in Hres. rewrite Hfound in Hres. discriminate Hres. }
    split; [exact Hne|]. rewrite (Hrun Hne) in Hres.
    destruct (task_not_null t'); [|discriminate].
    inversion Hres; subst. split; reflexivity.
Qed.

End TaskWrites.

Section TaskWriteWitnesses.
Import Errors Database Tasks Spec.

(** The theorem at work: Alice creates a task, whatever else the body
    of her request carried. *)
Lemma create_sets_owner_witness :
  let task := Task.mk "t-3" "u-alice" (Some "Call mum") None None (Some false) 200 201 in
  create_task "t-3" 200 201 (TaskCreate.mk "Call mum" None None false) "u-alice"
    Fixtures.session0
  = (inr task,
     mkSession [Fixtures.alice; Fixtures.bob] [Fixtures.task_a; Fixtures.task_b; task])
  /\ Task.user_id task = "u-alice".
Proof.
  intros task.
  destruct (create_sets_owner "t-3" 200 201 (TaskCreate.mk "Call mum" None None false)
              "u-alice" Fixtures.session0) as (Hrun & Howner & _).
  - reflexivity.
  - intros r [<-|[<-|[]]]; discriminate.
  - exists Fixtures.alice. split; [now left | reflexivity].
  - split; [exact Hrun | exact Howner].
Defined.

(** The theorem at work: Alice completes her task [t-1]; title,
    description and creation time stay, the modification time moves;
    her request without any field is refused. *)
Lemma partial_update_frame_witness :
  first (owned_by "t-1" "u-alice") (tasks Fixtures.session0) = Some Fixtures.task_a
  /\ fst (update_task 500 "t-1" (TaskUpdate.mk None None None (Some (Some true)))
            "u-alice" Fixtures.session0)
     = inr (Task.mk "t-1" "u-alice" (Some "Buy groceries") (Some "Milk, eggs, bread")
              (Some 20500) (Some true) 100 500)
  /\ update_task 500 "t-1" (TaskUpdate.mk None None None None) "u-alice" Fixtures.session0
     = (inl (raise_bad_request "At least one field required" None), Fixtures.session0).
Proof.
  split; [reflexivity|].
  destruct (partial_update_frame 500 "t-1" "u-alice"
              (TaskUpdate.mk None None None (Some (Some true)))
              Fixtures.session0 Fixtures.task_a eq_refl) as (_ & Hdone & _).
  destruct (partial_update_frame 500 "t-1" "u-alice"
              (TaskUpdate.mk None None None None)
              Fixtures.session0 Fixtures.task_a eq_refl) as (Hempty & _).
  split.
  - destruct Hdone as (Hrun & _); [discriminate | reflexivity|].
    rewrite Hrun. reflexivity.
  - destruct (Hempty eq_refl) as (Hrun & _). exact Hrun.
Defined.

(** C10. A field that is present with value [null] is a provided
    field. It is part of the dumped update data, so the request passes
    the at-least-one-field check, and the [setattr] loop writes [None]
    onto the task. With [{"description": null}] on a task the caller
    owns the update succeeds: the description is cleared, [updated_at]
    is refreshed, the other fields stay; the same request without the
    field is refused as empty. *)
Theorem null_counts_as_provided (now : datetime) (task_id uid : string)
    (s : Session) (t : Task.t)
    (Hfound : first (owned_by task_id uid) (tasks s) = Some t)
    (Hrow : task_not_null t = true) :
  (forall req,
      TaskUpdate.title req = Some None \/ TaskUpdate.description req = Some None
      \/ TaskUpdate.due_date req = Some None \/ TaskUpdate.is_completed req = Some None ->
      TaskUpdate.model_dump_exclude_unset req <> []
      /\ fst (update_task now task_id req uid s)
         <> inl (raise_bad_request "At least one field required" None))
  /\ (forall req,
        let t' := apply_updates t (TaskUpdate.model_dump_exclude_unset req) in
        (TaskUpdate.title req = Some None -> Task.title t' = None)
        /\ (TaskUpdate.description req = Some None -> Task.description t' = None)
        /\ (TaskUpdate.due_date req = Some None -> Task.due_date t' = None)
        /\ (TaskUpdate.is_completed req = Some None -> Task.is_completed t' = None))
  /\ (exists s',
        update_task now task_id (TaskUpdate.mk None (Some None) None None) uid s
        = (inr (Task.mk (Task.id t) (Task.user_id t) (Task.title t) None
                  (Task.due_date t) (Task.is_completed t) (Task.created_at t) now),
           s')
        /\ In (Task.mk (Task.id t) (Task.user_id t) (Task.title t) None
                 (Task.due_date t) (Task.is_completed t) (Task.created_at t) now)
              (tasks s'))
  /\ update_task now task_id (TaskUpdate.mk None None None None) uid s
     = (inl (raise_bad_request "At least one field required" None), s).
Proof.
  split; [|split; [|split]].
  - intros req Hnull.
    assert (TaskUpdate.model_dump_exclude_unset req <> []) as Hd.
    { intros Hd. apply dump_empty in Hd. subst req. simpl in Hnull.
      intuition discriminate. }
    split; [exact Hd|].
    unfold update_task. rewrite Hfound.
    destruct (TaskUpdate.model_dump_exclude_unset req); [congruence|].
    destruct (update_task_row _ _); simpl; discriminate.
  - intros req t'. destruct (apply_updates_fields t req) as (F1 & F2 & F3 & F4 & _).
    subst t'. repeat split; intros H; rewrite H in *; assumption.
  - set (t1 := Task.mk (Task.id t) (Task.user_id t) (Task.title t) None
                 (Task.due_date t) (Task.is_completed t) (Task.created_at t) now).
    assert (task_not_null t1 = true) as Hnn by exact Hrow.
    exists (mkSession (users s)
              (map (fun r => if String.eqb (Task.id r) (Task.id t1) then t1 else r)
                   (tasks s))).
    split.
    + unfold update_task. rewrite Hfound.
      change (match update_task_row s t1 with
              | None => (inl RaiseOther, s)
              | Some s' => (inr t1, s')
              end
              = (inr t1,
                 mkSession (users s)
                   (map (fun r => if String.eqb (Task.id r) (Task.id t1) then t1 else r)
                        (tasks s)))).
      unfold update_task_row. rewrite Hnn. reflexivity.
    + apply first_some in Hfound as [Hin _].
      apply (in_replaced t t1 (tasks s) Hin). reflexivity.
  - unfold update_task. rewrite Hfound. reflexivity.
Qed.

(** The theorem at work: Alice clears the description of [t-1]. *)
Lemma null_counts_as_provided_witness :
  first (owned_by "t-1" "u-alice") (tasks Fixtures.session0) = Some Fixtures.task_a
  /\ task_not_null Fixtures.task_a = true
  /\ fst (update_task 500 "t-1" (TaskUpdate.mk None (Some None) None None) "u-alice"
            Fixtures.session0)
     = inr (Task.mk "t-1" "u-alice" (Some "Buy groceries") None (Some 20500)
              (Some false) 100 500).
Proof.
  split; [reflexivity|]. split; [reflexivity|].
  destruct (null_counts_as_provided 500 "t-1" "u-alice" Fixtures.session0
              Fixtures.task_a eq_refl eq_refl) as (_ & _ & (s' & Hrun & _) & _).
  rewrite Hrun. reflexivity.
Defined.

End TaskWriteWitnesses.

(** ** Account lifecycle *)

Section AccountLifecycle.
Import Errors Database Auth Spec.

Variable jose : Jwt.Jose.
Variable bcrypt : Password.Bcrypt.
Variable settings : Config.Settings.
Variable utc_offset : datetime -> option Z.

Lemma first_exists {A : Type} (p : A -> bool) (rows : list A) :
  (exists a, In a rows /\ p a = true) -> exists b, first p rows = Some b.
Proof.
  intros (a & Hin & Hp). destruct (first p rows) as [b|] eqn:Hf; [now exists b|].
  pose proof (first_none p rows Hf a Hin). congruence.
Qed.

Lemma first_absent {A : Type} (p : A -> bool) (rows : list A) :
  (forall a, In a rows -> p a = false) -> first p rows = None.
Proof.
  intros Hall. destruct (first p rows) as [b|] eqn:Hf; [|reflexivity].
  apply first_some in Hf as [Hin Hp]. rewrite (Hall b Hin) in Hp. discriminate.
Qed.

Lemma invalid_credentials_outcome :
  outcome invalid_credentials
  = (401, JStr "INVALID_CREDENTIALS", JStr "Invalid email or password").
Proof. reflexivity. Qed.

(** C8. Login uniform failure. A login for an e-mail no user has
    ([s1]) and a login for an e-mail whose user has another password
    ([s2]) raise the same exception, hence get the same response:
    401, INVALID_CREDENTIALS, "Invalid email or password". Neither
    changes the session. *)
Theorem login_uniform_failure (now : datetime) (request : LoginRequest.t)
    (s1 s2 : Session) (u : User.t)
    (Habsent : forall v, In v (users s1) -> User.email v <> LoginRequest.email request)
    (Hfound : first (fun v => String.eqb (User.email v) (LoginRequest.email request))
                (users s2) = Some u)
    (Hwrong : Password.verify_password bcrypt (LoginRequest.password request)
                (User.password_hash u) = false) :
  login jose bcrypt settings utc_offset now request s1 = (inl invalid_credentials, s1)
  /\ login jose bcrypt settings utc_offset now request s2 = (inl invalid_credentials, s2)
  /\ match fst (login jose bcrypt settings utc_offset now request s1),
           fst (login jose bcrypt settings utc_offset now request s2) with
     | inl e1, inl e2 => error_response e1 = error_response e2
     | _, _ => False
     end
  /\ outcome invalid_credentials
     = (401, JStr "INVALID_CREDENTIALS", JStr "Invalid email or password").
Proof.
  assert (login jose bcrypt settings utc_offset now request s1
          = (inl invalid_credentials, s1)) as L1.
  { unfold login. rewrite first_absent; [reflexivity|].
    intros v Hin. apply String.eqb_neq. now apply Habsent. }
  assert (login jose bcrypt settings utc_offset now request s2
          = (inl invalid_credentials, s2)) as L2.
  { unfold login. rewrite Hfound, Hwrong. reflexivity. }
  rewrite L1, L2. repeat split.
Qed.

(** C9. Registration of a taken e-mail. When some user already has
    exactly the e-mail of the request, [register] raises the conflict
    (409, EMAIL_EXISTS) and leaves the session as it was. Hence, after a
    registration that succeeded, every further registration of the same
    e-mail is refused and writes no row. *)
Theorem register_duplicate (rand new_id : string) (now_row now_token : datetime)
    (request : RegisterRequest.t) (s : Session)
    (Hdup : exists u, In u (users s) /\ User.email u = RegisterRequest.email request) :
  register jose bcrypt settings utc_offset rand new_id now_row now_token request s
  = (inl (raise_conflict "Email already registered"), s)
  /\ outcome (raise_conflict "Email already registered")
     = (409, JStr "EMAIL_EXISTS", JStr "Email already registered")
  /\ (forall (rand0 id0 : string) (row0 token0 : datetime) (s0 s1 : Session)
             (r : AuthResponse.t) (password2 : string),
        register jose bcrypt settings utc_offset rand0 id0 row0 token0 request s0
        = (inr r, s1) ->
        register jose bcrypt settings utc_offset rand new_id now_row now_token
          (RegisterRequest.mk (RegisterRequest.email request) password2) s1
        = (inl (raise_conflict "Email already registered"), s1)).
Proof.
  assert (forall rd i n1 n2 rq s',
            (exists u, In u (users s') /\ User.email u = RegisterRequest.email rq) ->
            register jose bcrypt settings utc_offset rd i n1 n2 rq s'
            = (inl (raise_conflict "Email already registered"), s')) as Hconflict.
  { intros rd i n1 n2 rq s' (u & Hin & He). unfold register.
    destruct (first_exists
                (fun v => String.eqb (User.email v) (RegisterRequest.email rq))
                (users s')) as [b Hb].
    - exists u. split; [exact Hin|]. now apply String.eqb_eq.
    - rewrite Hb. reflexivity. }
  split; [now apply Hconflict|]. split; [reflexivity|].
  intros rand0 id0 row0 token0 s0 s1 r password2 Hfirst.
  apply Hconflict. simpl.
  unfold register in Hfirst.
  destruct (first _ (users s0)); [discriminate|].
  destruct (Password.hash_password bcrypt rand0 (RegisterRequest.password request))
    as [err|h]; [discriminate|].
  unfold insert_user in Hfirst.
  destruct (existsb _ (users s0)); [discriminate|].
  destruct (existsb _ (users s0)); [discriminate|].
  destruct (Jwt.create_access_token _ _ _ _ _ _); [discriminate|].
  inversion Hfirst; subst. simpl.
  eexists. split; [apply in_or_app; right; left; reflexivity | reflexivity].
Qed.

End AccountLifecycle.

Section AccountLifecycleWitnesses.
Import Errors Database Auth Spec.

(** The theorem at work: a login for an unknown e-mail and a login for
    Alice with a wrong password are answered alike. *)
Lemma login_uniform_failure_witness :
  let request := LoginRequest.mk "alice@example.com" "wrong-password" in
  let s1 := mkSession [Fixtures.bob] [] in
  let lg := login (Fixtures.one_token_jose []) (Fixtures.plain_bcrypt false)
              Fixtures.settings0 Fixtures.utc 1000 request in
  fst (lg s1) = fst (lg Fixtures.session0)
  /\ fst (lg s1) = inl invalid_credentials.
Proof.
  intros request s1 lg.
  destruct (login_uniform_failure (Fixtures.one_token_jose [])
              (Fixtures.plain_bcrypt false) Fixtures.settings0 Fixtures.utc 1000
              request s1 Fixtures.session0 Fixtures.alice) as (L1 & L2 & _).
  - simpl. intros v [<-|[]]. discriminate.
  - reflexivity.
  - reflexivity.
  - subst lg. rewrite L1, L2. split; reflexivity.
Defined.

(** The handler at work: Carol registers. *)
Example register_runs :
  let lib := Fixtures.one_token_jose [] in
  register lib (Fixtures.plain_bcrypt false) Fixtures.settings0 Fixtures.utc
    "abcdefghijklmnopqrstuv" "u-carol" 300 301
    (RegisterRequest.mk "carol@example.com" "SecurePass123") (mkSession [] [])
  = (inr (AuthResponse.mk "u-carol" "carol@example.com"
            "signed.0123456789abcdef0123456789abcdef"),
     mkSession
       [User.mk "u-carol" "carol@example.com"
          "$2b$12$abcdefghijklmnopqrstuvSecurePass123" 300] []).
Proof. reflexivity. Qed.

(** The theorem at work: Carol registers, then the same e-mail is
    registered again: conflict, and the users table still has one
    row. *)
Lemma register_duplicate_witness :
  let lib := Fixtures.one_token_jose [] in
  let reg := register lib (Fixtures.plain_bcrypt false) Fixtures.settings0 Fixtures.utc in
  let request := RegisterRequest.mk "carol@example.com" "SecurePass123" in
  let s1 := snd (reg "abcdefghijklmnopqrstuv" "u-carol" 300 301 request (mkSession [] [])) in
  (exists u, In u (users s1) /\ User.email u = RegisterRequest.email request)
  /\ reg "zyxwvutsrqponmlkjihgfe" "u-carol-2" 400 401 request s1
     = (inl (raise_conflict "Email already registered"), s1)
  /\ length (users s1) = 1%nat.
Proof.
  intros lib reg request s1.
  assert (exists u, In u (users s1) /\ User.email u = RegisterRequest.email request)
    as Hdup by (eexists; split; [left; reflexivity | reflexivity]).
  split; [exact Hdup|].
  destruct (register_duplicate lib (Fixtures.plain_bcrypt false) Fixtures.settings0
              Fixtures.utc "zyxwvutsrqponmlkjihgfe" "u-carol-2" 400 401 request s1 Hdup)
    as (Hrun & _).
  split; [exact Hrun | reflexivity].
Defined.

(** The comparison of e-mails is exact: the same address in another case
    is another address. *)
Example register_other_case :
  let lib := Fixtures.one_token_jose [] in
  match fst (register lib (Fixtures.plain_bcrypt false) Fixtures.settings0 Fixtures.utc
               "abcdefghijklmnopqrstuv" "u-alice-2" 300 301
               (RegisterRequest.mk "Alice@example.com" "SecurePass123")
               Fixtures.session0) with
  | inr r => AuthResponse.user_email r = "Alice@example.com"
  | inl _ => False
  end.
Proof. reflexivity. Qed.

End AccountLifecycleWitnesses.

(** ** The credential hasher *)

Section Strings.

Lemma substring_0_0 (s : string) : substring 0 0 s = "".
Proof. destruct s; reflexivity. Qed.

Lemma substring_prefix (s1 s2 : string) :
  substring 0 (String.length s1) (s1 ++ s2) = s1.
Proof.
  induction s1 as [|c s1 IH]; simpl; [apply substring_0_0 | now rewrite IH].
Qed.

Lemma substring_whole (s : string) : substring 0 (String.length s) s = s.
Proof. induction s as [|c s IH]; simpl; [reflexivity | now rewrite IH]. Qed.

Lemma eqb_append_same (s a b : string) :
  String.eqb (s ++ a) (s ++ b) = String.eqb a b.
Proof.
  induction s as [|c s IH]; simpl; [reflexivity|]. now rewrite Ascii.eqb_refl.
Qed.

Lemma length_gensalt_12 (rand : string) :
  String.length rand = 22%nat -> String.length (Password.gensalt 12 rand) = 29%nat.
Proof. intros H. simpl. now rewrite H. Qed.

Lemma gensalt_12_inj (rand1 rand2 : string) :
  Password.gensalt 12 rand1 = Password.gensalt 12 rand2 -> rand1 = rand2.
Proof. intros H. now inversion H. Qed.

End Strings.

Section CredentialHasherLemmas.
Import Password.

Variable lib : Bcrypt.

(** A salt drawn by [gensalt(rounds=12)] that the library accepts. *)
Lemma hashpw_fresh_salt (rand password : string) :
  String.length rand = 22%nat ->
  valid_salt lib (gensalt 12 rand) = true ->
  (String.length password <= 72)%nat ->
  hashpw lib password (gensalt 12 rand)
  = inr (gensalt 12 rand ++ digest lib password (gensalt 12 rand)).
Proof.
  intros Hr Hv Hlen. unfold hashpw.
  pose proof (length_gensalt_12 rand Hr) as H29.
  replace (substring 0 29 (gensalt 12 rand)) with (gensalt 12 rand)
    by (rewrite <- H29; symmetry; apply substring_whole).
  rewrite H29, Hv. simpl negb. cbv iota.
  destruct (72 <? String.length password)%nat eqn:Hlong; [|reflexivity].
  apply Nat.ltb_lt in Hlong. lia.
Qed.

(** Checking a password against a hash made under a fresh salt compares
    the two digests. *)
Lemma checkpw_fresh_hash (rand password candidate : string) :
  String.length rand = 22%nat ->
  valid_salt lib (gensalt 12 rand) = true ->
  (String.length candidate <= 72)%nat ->
  let salt := gensalt 12 rand in
  checkpw lib candidate (salt ++ digest lib password salt)
  = inr (String.eqb (digest lib candidate salt) (digest lib password salt)).
Proof.
  intros Hr Hv Hlen salt. unfold checkpw, hashpw.
  pose proof (length_gensalt_12 rand Hr) as H29. fold salt in H29, Hv.
  replace (substring 0 29 (salt ++ digest lib password salt)) with salt
    by (rewrite <- H29; symmetry; apply substring_prefix).
  rewrite H29, Hv. simpl negb. cbv iota.
  destruct (72 <? String.length candidate)%nat eqn:Hlong.
  - apply Nat.ltb_lt in Hlong. lia.
  - now rewrite eqb_append_same.
Qed.

(** Whatever the strings, [verify_password] answers [True] only for the
    hash the library itself computes for this password under the salt
    the hash starts with. *)
Lemma verify_password_true (plain hashed : string) :
  verify_password lib plain hashed = true -> hashpw lib plain hashed = inr hashed.
Proof.
  unfold verify_password, checkpw.
  destruct (hashpw lib plain hashed) as [err|ret]; [discriminate|].
  intros H. apply String.eqb_eq in H. now subst.
Qed.

End CredentialHasherLemmas.

Section CredentialHasherTheorems.
Import Password.

(** Beyond 72 bytes, whatever the digest: a library that truncates takes
    two passwords with the same first 72 bytes for the same password, a
    library that refuses makes [hash_password] raise. *)
Lemma long_passwords (lib : Bcrypt) (rand P P2 : string) :
  String.length rand = 22%nat ->
  valid_salt lib (gensalt 12 rand) = true ->
  (72 < String.length P)%nat -> (72 < String.length P2)%nat ->
  substring 0 72 P2 = substring 0 72 P ->
  match hash_password lib rand P with
  | inl _ => rejects_long lib = true
  | inr h => rejects_long lib = false /\ verify_password lib P2 h = true
  end.
Proof.
  intros Hr Hv HP HP2 Hsame. unfold hash_password, hashpw.
  pose proof (length_gensalt_12 rand Hr) as H29.
  replace (substring 0 29 (gensalt 12 rand)) with (gensalt 12 rand)
    by (rewrite <- H29; symmetry; apply substring_whole).
  rewrite H29, Hv. simpl negb. cbv iota.
  apply Nat.ltb_lt in HP, HP2. rewrite HP.
  destruct (rejects_long lib) eqn:Hrej; [reflexivity|]. split; [reflexivity|].
  unfold verify_password, checkpw, hashpw.
  replace (substring 0 29 (gensalt 12 rand ++ _)) with (gensalt 12 rand)
    by (rewrite <- H29; symmetry; apply substring_prefix).
  rewrite H29, Hv, HP2, Hrej, Hsame. simpl negb. cbv iota.
  apply String.eqb_refl.
Qed.

(** C6 (amended). Password hash and verify, for a password [P] of at
    most 72 bytes and salts the library accepts. Two calls of
    [hash_password(P)] that draw different salts return different
    strings; [verify_password(P, hash_password(P))] is [True]; another
    password of at most 72 bytes is accepted against this hash exactly
    when its digest under the hash's salt is the digest of [P], so it is
    refused whenever the digests differ; and for arbitrary strings
    [verify_password] never raises: it is [False] whenever the library
    raises, and [True] only for the very hash the library computes for
    that password, so that a malformed hash and a mismatch look the
    same. *)
Theorem password_contract (lib : Bcrypt) (rand1 rand2 P : string)
    (Hr1 : String.length rand1 = 22%nat) (Hr2 : String.length rand2 = 22%nat)
    (Hv1 : valid_salt lib (gensalt 12 rand1) = true)
    (Hv2 : valid_salt lib (gensalt 12 rand2) = true)
    (Hlen : (String.length P <= 72)%nat) :
  exists h1 h2,
    hash_password lib rand1 P = inr h1
    /\ hash_password lib rand2 P = inr h2
    /\ (rand1 <> rand2 -> h1 <> h2)
    /\ verify_password lib P h1 = true
    /\ (forall P2, (String.length P2 <= 72)%nat ->
          (verify_password lib P2 h1 = true
           <-> digest lib P2 (gensalt 12 rand1) = digest lib P (gensalt 12 rand1)))
    /\ (forall plain hashed err,
          checkpw lib plain hashed = inl err -> verify_password lib plain hashed = false)
    /\ (forall plain hashed,
          verify_password lib plain hashed = true -> hashpw lib plain hashed = inr hashed).
Proof.
  exists (gensalt 12 rand1 ++ digest lib P (gensalt 12 rand1)),
         (gensalt 12 rand2 ++ digest lib P (gensalt 12 rand2)).
  split; [now apply hashpw_fresh_salt|]. split; [now apply hashpw_fresh_salt|].
  split; [|split; [|split; [|split]]].
  - intros Hne Heq. apply Hne, gensalt_12_inj.
    rewrite <- (substring_prefix (gensalt 12 rand1) (digest lib P (gensalt 12 rand1))).
    rewrite <- (substring_prefix (gensalt 12 rand2) (digest lib P (gensalt 12 rand2))).
    rewrite (length_gensalt_12 rand1 Hr1), (length_gensalt_12 rand2 Hr2).
    now rewrite Heq.
  - unfold verify_password.
    rewrite (checkpw_fresh_hash lib rand1 P P Hr1 Hv1 Hlen). apply String.eqb_refl.
  - intros P2 Hlen2. unfold verify_password.
    rewrite (checkpw_fresh_hash lib rand1 P P2 Hr1 Hv1 Hlen2). apply String.eqb_eq.
  - intros plain hashed err H. unfold verify_password. now rewrite H.
  - apply verify_password_true.
Qed.

(** The theorem at work: "SecurePass123" hashed under two salts. *)
Lemma password_contract_witness :
  let lib := Fixtures.plain_bcrypt false in
  exists h1 h2,
    hash_password lib "abcdefghijklmnopqrstuv" "SecurePass123" = inr h1
    /\ hash_password lib "zyxwvutsrqponmlkjihgfe" "SecurePass123" = inr h2
    /\ h1 <> h2
    /\ verify_password lib "SecurePass123" h1 = true
    /\ verify_password lib "WrongPassword" h1 = false
    /\ verify_password lib "SecurePass123" "not-a-bcrypt-hash" = false.
Proof.
  intros lib.
  destruct (password_contract lib "abcdefghijklmnopqrstuv" "zyxwvutsrqponmlkjihgfe"
              "SecurePass123" eq_refl eq_refl eq_refl eq_refl)
    as (h1 & h2 & H1 & H2 & Hne & Hok & Hother & Hraise & _).
  - simpl. lia.
  - exists h1, h2.
    split; [exact H1|]. split; [exact H2|]. split; [apply Hne; discriminate|].
    split; [exact Hok|]. split.
    + destruct (verify_password lib "WrongPassword" h1) eqn:Hw; [|reflexivity].
      apply Hother in Hw; [discriminate Hw | simpl; lia].
    + apply (Hraise _ _ ValueError). reflexivity.
Defined.

(** C6 as stated fails beyond 72 bytes. With a library that truncates,
    a different password that shares the first 72 bytes is accepted;
    with a library that refuses long passwords, [hash_password] raises
    instead of returning a hash. *)
Lemma password_contract_counterexample :
  let P := Fixtures.long_password "b" in
  let P2 := Fixtures.long_password "c" in
  P2 <> P
  /\ (exists h,
        hash_password (Fixtures.plain_bcrypt false) "abcdefghijklmnopqrstuv" P = inr h
        /\ verify_password (Fixtures.plain_bcrypt false) P2 h = true)
  /\ hash_password (Fixtures.plain_bcrypt true) "abcdefghijklmnopqrstuv" P
     = inl ValueError.
Proof.
  split; [discriminate|]. split; [|reflexivity].
  eexists. split; reflexivity.
Qed.

End CredentialHasherTheorems.

(** * Further properties of the handlers *)

(** ** Task operations composed *)

Section TaskFlowLemmas.
Import Errors Database Tasks Spec.

Lemma nodup_map_inj {A B : Type} (f : A -> B) (l : list A) (a b : A) :
  NoDup (map f l) -> In a l -> In b l -> f a = f b -> a = b.
Proof.
  induction l as [|x l IH]; simpl; [tauto|].
  intros Hnd Ha Hb Hf. inversion Hnd as [|? ? Hnotin Hnd']; subst.
  destruct Ha as [->|Ha], Hb as [->|Hb]; auto.
  - exfalso. apply Hnotin. rewrite Hf. now apply in_map.
  - exfalso. apply Hnotin. rewrite <- Hf. now apply in_map.
Qed.

(** Under the primary key, the ownership query finds a stored task by
    its own identifier and owner. *)
Lemma first_owned_pk (s : Session) (t : Task.t) :
  tasks_pk s -> In t (tasks s) ->
  first (owned_by (Task.id t) (Task.user_id t)) (tasks s) = Some t.
Proof.
  intros Hpk Hin.
  destruct (first (owned_by (Task.id t) (Task.user_id t)) (tasks s)) as [x|] eqn:Hf.
  - apply first_some in Hf as [Hx Hp]. apply owned_by_true in Hp as [Hid _].
    f_equal. exact (nodup_map_inj Task.id (tasks s) x t Hpk Hx Hin Hid).
  - pose proof (first_none _ _ Hf t Hin) as Hp.
    assert (owned_by (Task.id t) (Task.user_id t) t = true)
      by (apply owned_by_true; auto).
    congruence.
Qed.

Lemma map_replace_ids (t' : Task.t) (rows : list Task.t) :
  map Task.id (map (fun r => if String.eqb (Task.id r) (Task.id t') then t' else r) rows)
  = map Task.id rows.
Proof.
  induction rows as [|x rows IH]; simpl; [reflexivity|]. rewrite IH. f_equal.
  destruct (String.eqb (Task.id x) (Task.id t')) eqn:E; [|reflexivity].
  apply String.eqb_eq in E. auto.
Qed.

(** Dropping rows keeps the primary key of [tasks]. *)
Lemma filter_keeps_pk (keep : Task.t -> bool) (rows : list Task.t) :
  NoDup (map Task.id rows) -> NoDup (map Task.id (filter keep rows)).
Proof.
  induction rows as [|row rows IH]; simpl; intros Hpk; [exact Hpk|].
  inversion Hpk as [|? ? Hfresh Hrest]; subst.
  destruct (keep row); simpl; [|now apply IH].
  constructor; [|now apply IH].
  intros Hdup. apply Hfresh.
  apply in_map_iff in Hdup as (other & Hsame & Hother).
  apply filter_In in Hother as [Hother _].
  rewrite <- Hsame. now apply in_map.
Qed.

Lemma existsb_id_false (new_id : string) (rows : list Task.t) :
  existsb (fun r => String.eqb (Task.id r) new_id) rows = false ->
  forall r, In r rows -> Task.id r <> new_id.
Proof.
  intros H r Hin Heq.
  assert (existsb (fun r => String.eqb (Task.id r) new_id) rows = true) as Ht
    by (apply existsb_exists; exists r; split; [exact Hin | now apply String.eqb_eq]).
  congruence.
Qed.

Lemma existsb_user_true (uid : string) (rows : list User.t) :
  existsb (fun u => String.eqb (User.id u) uid) rows = true <->
  exists u, In u rows /\ User.id u = uid.
Proof.
  rewrite existsb_exists. split; intros (u & Hin & H); exists u; split; auto;
    now apply String.eqb_eq.
Qed.

(** What [create_task] did when it returned a task. *)
Lemma create_task_success (new_id : string) (now1 now2 : datetime)
    (request : TaskCreate.t) (uid : string) (s s' : Session) (task : Task.t) :
  create_task new_id now1 now2 request uid s = (inr task, s') ->
  task = Task.mk new_id uid (Some (TaskCreate.title request))
           (TaskCreate.description request) (TaskCreate.due_date request)
           (Some (TaskCreate.is_completed request)) now1 now2
  /\ s' = mkSession (users s) (tasks s ++ [task])
  /\ blank (TaskCreate.title request) = false
  /\ (forall r, In r (tasks s) -> Task.id r <> new_id)
  /\ (exists u, In u (users s) /\ User.id u = uid).
Proof.
  unfold create_task, insert_task.
  destruct (String.eqb (TaskCreate.title request) "") eqn:He; [discriminate|].
  destruct (blank (TaskCreate.title request)) eqn:Hb; [discriminate|]. simpl.
  destruct (existsb _ (tasks s)) eqn:Hid; [discriminate|].
  destruct (existsb _ (users s)) eqn:Hu; [|discriminate]. simpl.
  intros H. inversion H; subst. repeat split.
  - exact (existsb_id_false new_id (tasks s) Hid).
  - now apply existsb_user_true.
Qed.

(** The rows a SELECT returns are the rows that match, in whatever
    order. *)
Lemma all_permutation {A : Type} (order : RowOrder) (p : A -> bool) (rows : list A) :
  Permutation (all order p rows) (filter p rows).
Proof. unfold all. apply arranged. Qed.

Lemma all_rows {A : Type} (order : RowOrder) (p : A -> bool) (rows : list A) (a : A) :
  In a (all order p rows) <-> In a (filter p rows).
Proof.
  split; apply Permutation_in; [|apply Permutation_sym]; apply all_permutation.
Qed.

Lemma first_app_last {A : Type} (p : A -> bool) (rows : list A) (a : A) :
  (forall r, In r rows -> p r = false) -> p a = true ->
  first p (rows ++ [a]) = Some a.
Proof.
  unfold first. induction rows as [|x rows IH]; simpl; intros Hall Hp.
  - now rewrite Hp.
  - rewrite (Hall x (or_introl eq_refl)). apply IH; auto.
Qed.

Lemma filter_app_last {A : Type} (p : A -> bool) (rows : list A) (a : A) :
  p a = true -> filter p (rows ++ [a]) = (filter p rows ++ [a])%list.
Proof. intros Hp. rewrite filter_app. simpl. now rewrite Hp. Qed.

End TaskFlowLemmas.

Section TaskFlows.
Import Errors Database Tasks Spec.

(** X1. Listing and reading agree. [get_tasks] never fails and never
    writes; it returns exactly the stored tasks whose owner is the
    caller, and, under the primary key, a task is in the caller's list
    precisely when [get_task] returns it for its identifier. *)
Theorem list_and_read_agree (order : RowOrder) (uid : string) (s : Session)
    (PK : tasks_pk s) :
  exists l,
    get_tasks order uid s = (inr l, s)
    /\ (forall t, In t l <-> In t (tasks s) /\ Task.user_id t = uid)
    /\ (forall t, In t l -> get_task (Task.id t) uid s = (inr t, s))
    /\ (forall task_id t, get_task task_id uid s = (inr t, s) -> In t l).
Proof.
  eexists. split; [reflexivity|].
  assert (forall t, In t (all order (fun t0 => String.eqb (Task.user_id t0) uid) (tasks s))
                    <-> In t (tasks s) /\ Task.user_id t = uid) as Hmem.
  { intros t. rewrite (all_rows order). rewrite filter_In, String.eqb_eq. tauto. }
  split; [exact Hmem|]. split.
  - intros t Hin. apply Hmem in Hin as [Hin Hu]. unfold get_task.
    rewrite <- Hu. now rewrite (first_owned_pk s t PK Hin).
  - intros task_id t Hget. apply Hmem. unfold get_task in Hget.
    destruct (first (owned_by task_id uid) (tasks s)) as [x|] eqn:Hf; [|discriminate].
    inversion Hget; subst. apply first_owned_some in Hf. tauto.
Qed.

Lemma list_and_read_agree_witness :
  tasks_pk Fixtures.session0
  /\ get_task "t-1" "u-alice" Fixtures.session0 = (inr Fixtures.task_a, Fixtures.session0).
Proof.
  assert (tasks_pk Fixtures.session0) as PK.
  { unfold tasks_pk; simpl. repeat constructor; simpl; intuition discriminate. }
  split; [exact PK|].
  destruct (list_and_read_agree Fixtures.reverse_order "u-alice" Fixtures.session0 PK)
    as (l & Hl & _ & Hread & _).
  inversion Hl; subst. apply (Hread Fixtures.task_a). simpl. now left.
Defined.

(** X2. Outcomes of [create_task]. It returns a task exactly when the
    title is not blank, the drawn identifier is free and the caller is a
    row of [users]; the task then carries the request's fields and the
    two clock readings. A blank title (a title of spaces passes the
    schema) is answered 400 "Title is required"; a taken identifier or
    an unknown owner surfaces as the catch-all 500. Every refusal leaves
    the session as it was. *)
Theorem create_task_outcomes (new_id : string) (now1 now2 : datetime)
    (request : TaskCreate.t) (uid : string) (s : Session) :
  let title := TaskCreate.title request in
  match create_task new_id now1 now2 request uid s with
  | (inr task, s') =>
      blank title = false
      /\ (forall r, In r (tasks s) -> Task.id r <> new_id)
      /\ (exists u, In u (users s) /\ User.id u = uid)
      /\ task = Task.mk new_id uid (Some title) (TaskCreate.description request)
                  (TaskCreate.due_date request)
                  (Some (TaskCreate.is_completed request)) now1 now2
  | (inl e, s') =>
      s' = s
      /\ ((blank title = true
           /\ e = raise_bad_request "Title is required" None
           /\ outcome e = (400, JStr "VALIDATION_ERROR", JStr "Title is required"))
          \/ (blank title = false
              /\ e = RaiseOther
              /\ outcome e = (500, JStr "SERVER_ERROR", JStr "Something went wrong")
              /\ ((exists r, In r (tasks s) /\ Task.id r = new_id)
                  \/ ~ (exists u, In u (users s) /\ User.id u = uid))))
  end.
Proof.
  intros title.
  destruct (create_task new_id now1 now2 request uid s) as [[e|task] s'] eqn:Hrun.
  - unfold create_task, insert_task in Hrun. fold title in Hrun.
    assert (String.eqb title "" || blank title = blank title) as Hor.
    { destruct (String.eqb title "") eqn:He; [|reflexivity].
      apply String.eqb_eq in He. now rewrite He. }
    rewrite Hor in Hrun.
    destruct (blank title) eqn:Hb.
    + inversion Hrun; subst. split; [reflexivity|]. left. repeat split.
    + destruct (existsb _ (tasks s)) eqn:Hid.
      * inversion Hrun; subst. split; [reflexivity|]. right. repeat split.
        left. apply existsb_exists in Hid as (r & Hin & Hr).
        exists r. split; [exact Hin | now apply String.eqb_eq].
      * destruct (existsb _ (users s)) eqn:Hu; simpl in Hrun; [discriminate|].
        inversion Hrun; subst. split; [reflexivity|]. right. repeat split.
        right. intros Hex. apply existsb_user_true in Hex. cbn [Task.user_id] in Hu.
        congruence.
  - apply create_task_success in Hrun as (-> & _ & Hb & Hfree & Hu). auto.
Qed.

(** X3. Create, then read. Once [create_task] has returned a task, the
    caller reads it back under its identifier, every other identity gets
    the uniform not-found for it, the caller's list holds the tasks it
    held before and the new task, once each and in whatever order the
    engine returns them, and the lists of the others hold what they
    held. *)
Theorem create_then_read (order : RowOrder) (new_id : string) (now1 now2 : datetime)
    (request : TaskCreate.t) (uid : string) (s s' : Session) (task : Task.t)
    (Hcreate : create_task new_id now1 now2 request uid s = (inr task, s')) :
  get_task new_id uid s' = (inr task, s')
  /\ (forall other, other <> uid -> get_task new_id other s' = (inl not_found, s'))
  /\ (forall l, get_tasks order uid s = (inr l, s) ->
        exists l', get_tasks order uid s' = (inr l', s')
                   /\ Permutation l' (task :: l))
  /\ (forall other l, other <> uid -> get_tasks order other s = (inr l, s) ->
        exists l', get_tasks order other s' = (inr l', s') /\ Permutation l' l).
Proof.
  apply create_task_success in Hcreate as (Ht & -> & _ & Hfree & _).
  assert (Task.id task = new_id /\ Task.user_id task = uid) as [Hid Hu]
    by (subst task; split; reflexivity).
  clear Ht.
  assert (forall who r, In r (tasks s) -> owned_by new_id who r = false) as Hnone.
  { intros who r Hin. destruct (owned_by new_id who r) eqn:Ho; [|reflexivity].
    apply owned_by_true in Ho as [Hr _]. exfalso. exact (Hfree r Hin Hr). }
  split; [|split; [|split]].
  - unfold get_task. cbn [tasks]. rewrite first_app_last; auto.
    apply owned_by_true. auto.
  - intros other Hne. unfold get_task. cbn [tasks].
    rewrite first_absent; [reflexivity|].
    intros r Hin. apply in_app_or in Hin as [Hin|[<-|[]]]; [now apply Hnone|].
    unfold owned_by. rewrite Hu.
    replace (String.eqb uid other) with false
      by (symmetry; apply String.eqb_neq; congruence).
    apply andb_false_r.
  - intros l Hl. unfold get_tasks in *. injection Hl as <-. cbn [tasks].
    eexists. split; [reflexivity|].
    eapply Permutation_trans; [apply all_permutation|].
    rewrite filter_app_last by (rewrite Hu; apply String.eqb_refl).
    eapply Permutation_trans; [apply Permutation_app_comm|]. simpl.
    apply perm_skip. apply Permutation_sym, all_permutation.
  - intros other l Hne Hl. unfold get_tasks in *. injection Hl as <-. cbn [tasks].
    eexists. split; [reflexivity|].
    eapply Permutation_trans; [apply all_permutation|].
    rewrite filter_app. simpl. rewrite Hu.
    replace (String.eqb uid other) with false
      by (symmetry; apply String.eqb_neq; congruence).
    rewrite app_nil_r. apply Permutation_sym, all_permutation.
Qed.

Lemma create_then_read_witness :
  let task := Task.mk "t-3" "u-alice" (Some "Call mum") None None (Some false) 200 201 in
  let s' := mkSession [Fixtures.alice; Fixtures.bob]
              [Fixtures.task_a; Fixtures.task_b; task] in
  create_task "t-3" 200 201 (TaskCreate.mk "Call mum" None None false) "u-alice"
    Fixtures.session0 = (inr task, s')
  /\ get_task "t-3" "u-alice" s' = (inr task, s')
  /\ get_task "t-3" "u-bob" s' = (inl not_found, s').
Proof.
  intros task s'.
  assert (create_task "t-3" 200 201 (TaskCreate.mk "Call mum" None None false) "u-alice"
            Fixtures.session0 = (inr task, s')) as Hrun by reflexivity.
  split; [exact Hrun|].
  destruct (create_then_read Fixtures.reverse_order _ _ _ _ _ _ _ _ Hrun)
    as (Hread & Hother & _).
  split; [exact Hread|]. apply Hother. discriminate.
Defined.

End TaskFlows.

Section TaskWriteLemmas.
Import Errors Database Tasks Spec.

Lemma nodup_snoc {A : Type} (l : list A) (x : A) :
  NoDup l -> ~ In x l -> NoDup (l ++ [x]).
Proof.
  induction l as [|y l IH]; simpl; intros Hnd Hx.
  - constructor; [tauto | constructor].
  - inversion Hnd as [|? ? Hy Hnd']; subst. constructor.
    + intros Hin. apply in_app_or in Hin as [Hin|[->|[]]]; tauto.
    + apply IH; tauto.
Qed.

(** What [update_task] did when it returned a task. *)
Lemma update_task_success (now : datetime) (task_id uid : string)
    (req : TaskUpdate.t) (s s' : Session) (t' : Task.t) :
  update_task now task_id req uid s = (inr t', s') ->
  exists t,
    first (owned_by task_id uid) (tasks s) = Some t
    /\ t' = set_updated_at (apply_updates t (TaskUpdate.model_dump_exclude_unset req)) now
    /\ task_not_null t' = true
    /\ s' = mkSession (users s)
              (map (fun r => if String.eqb (Task.id r) (Task.id t') then t' else r)
                   (tasks s)).
Proof.
  unfold update_task.
  destruct (first (owned_by task_id uid) (tasks s)) as [t|]; [|discriminate].
  destruct (TaskUpdate.model_dump_exclude_unset req) as [|i items]; [discriminate|].
  unfold update_task_row.
  destruct (task_not_null (set_updated_at (apply_updates t (i :: items)) now)) eqn:Hnn;
    simpl; [|discriminate].
  intros H. inversion H; subst. exists t. auto.
Qed.

(** What [delete_task] did when it confirmed. *)
Lemma delete_task_success (task_id uid : string) (s s' : Session) (m : string) :
  delete_task task_id uid s = (inr m, s') ->
  exists t,
    first (owned_by task_id uid) (tasks s) = Some t
    /\ s' = mkSession (users s)
              (filter (fun r => negb (String.eqb (Task.id r) task_id)) (tasks s)).
Proof.
  unfold delete_task.
  destruct (first (owned_by task_id uid) (tasks s)) as [t|] eqn:Hf; [|discriminate].
  intros H. inversion H; subst. exists t. split; [reflexivity|].
  unfold delete_task_row.
  apply first_owned_some in Hf as (_ & -> & _). reflexivity.
Qed.

(** A refused [create_task] writes nothing. *)
Lemma create_task_refused (new_id : string) (now1 now2 : datetime)
    (request : TaskCreate.t) (uid : string) (s s' : Session) (e : Raised) :
  create_task new_id now1 now2 request uid s = (inl e, s') -> s' = s.
Proof.
  unfold create_task.
  destruct (_ || _); [now inversion 1|].
  destruct (insert_task s _); now inversion 1.
Qed.

Lemma updated_key (now : datetime) (t : Task.t) (items : list TaskUpdate.Item) :
  Task.id (set_updated_at (apply_updates t items) now) = Task.id t
  /\ Task.user_id (set_updated_at (apply_updates t items) now) = Task.user_id t.
Proof.
  destruct (apply_updates_keeps_key items t) as (K1 & K2 & _).
  split; [exact K1 | exact K2].
Qed.

Lemma length_remove_key {A B : Type} (f : A -> B) (keep : A -> bool) (l : list A) (a : A) :
  NoDup (map f l) -> In a l ->
  (forall r, In r l -> keep r = false <-> f r = f a) ->
  (length (filter keep l) + 1 = length l)%nat.
Proof.
  induction l as [|x l IH]; simpl; [tauto|].
  intros Hnd Hin Hkeep. inversion Hnd as [|? ? Hnotin Hnd']; subst.
  destruct Hin as [->|Hin].
  - rewrite (proj2 (Hkeep a (or_introl eq_refl)) eq_refl).
    assert (filter keep l = l) as ->; [|lia].
    apply forallb_filter_id. apply forallb_forall. intros r Hr.
    destruct (keep r) eqn:Hk; [reflexivity|]. exfalso.
    apply Hnotin. rewrite <- (proj1 (Hkeep r (or_intror Hr)) Hk). now apply in_map.
  - destruct (keep x) eqn:Hk.
    + simpl. rewrite <- (IH Hnd' Hin); [lia|]. intros r Hr. apply Hkeep. now right.
    + exfalso. apply Hnotin.
      rewrite (proj1 (Hkeep x (or_introl eq_refl)) Hk). now apply in_map.
Qed.

End TaskWriteLemmas.

Section TaskWriteFlows.
Import Errors Database Tasks Spec.

(** X4. The task handlers keep the constraints of the schema. Starting
    from a session that satisfies them (primary keys, foreign key of the
    owner, NOT NULL columns, unique e-mails), the session left by
    [create_task], [update_task] or [delete_task] satisfies them again,
    whatever the handler answered. *)
Theorem task_handlers_keep_constraints (new_id : string) (now1 now2 now : datetime)
    (create_request : TaskCreate.t) (update_request : TaskUpdate.t)
    (task_id uid : string) (s : Session) (Hinv : db_invariant s) :
  db_invariant (snd (create_task new_id now1 now2 create_request uid s))
  /\ db_invariant (snd (update_task now task_id update_request uid s))
  /\ db_invariant (snd (delete_task task_id uid s)).
Proof.
  destruct Hinv as (Hpk & Hfk & Hfill & Hupk & Hmail).
  split; [|split].
  - destruct (create_task new_id now1 now2 create_request uid s) as [[e|task] s'] eqn:Hrun.
    + apply create_task_refused in Hrun as ->. simpl. repeat split; assumption.
    + apply create_task_success in Hrun as (Ht & -> & _ & Hfree & Hu).
      assert (Task.id task = new_id /\ Task.user_id task = uid
              /\ task_not_null task = true) as (Hid & Huid & Hnn)
        by (subst task; repeat split).
      clear Ht. simpl. repeat split; try assumption.
      * unfold tasks_pk. cbn [tasks]. rewrite map_app. simpl. apply nodup_snoc; [exact Hpk|].
        intros Hin. apply in_map_iff in Hin as (r & Hr & Hinr).
        apply (Hfree r Hinr). congruence.
      * intros t Hin. cbn [tasks users] in *.
        apply in_app_or in Hin as [Hin|[<-|[]]]; [now apply Hfk|].
        rewrite Huid. exact Hu.
      * intros t Hin. cbn [tasks] in Hin.
        apply in_app_or in Hin as [Hin|[<-|[]]]; [now apply Hfill | exact Hnn].
  - destruct (update_task now task_id update_request uid s) as [[e|t'] s'] eqn:Hrun.
    + pose proof (update_task_spec now task_id uid update_request s Hpk) as H.
      rewrite Hrun in H. destruct H as [_ ->]. simpl. repeat split; assumption.
    + apply update_task_success in Hrun as (t & Hf & Ht' & Hnn & ->).
      apply first_owned_some in Hf as (Hin & Hid & Hu).
      destruct (updated_key now t (TaskUpdate.model_dump_exclude_unset update_request))
        as [K1 K2]. rewrite <- Ht' in K1, K2.
      simpl. repeat split; try assumption.
      * unfold tasks_pk. cbn [tasks]. rewrite map_replace_ids. exact Hpk.
      * intros r Hr. cbn [tasks users] in *.
        apply in_map_iff in Hr as (x & Hx & Hinx).
        destruct (String.eqb (Task.id x) (Task.id t')); subst r.
        -- rewrite K2. now apply Hfk.
        -- now apply Hfk.
      * intros r Hr. cbn [tasks] in Hr.
        apply in_map_iff in Hr as (x & Hx & Hinx).
        destruct (String.eqb (Task.id x) (Task.id t')); subst r;
          [exact Hnn | now apply Hfill].
  - destruct (delete_task task_id uid s) as [[e|m] s'] eqn:Hrun.
    + pose proof (delete_task_spec task_id uid s Hpk) as H.
      rewrite Hrun in H. destruct H as (_ & _ & ->). simpl. repeat split; assumption.
    + apply delete_task_success in Hrun as (t & _ & ->).
      simpl. repeat split; try assumption.
      * unfold tasks_pk. cbn [tasks]. now apply filter_keeps_pk.
      * intros r Hr. cbn [tasks users] in *. apply filter_In in Hr as [Hr _]. now apply Hfk.
      * intros r Hr. cbn [tasks] in Hr. apply filter_In in Hr as [Hr _]. now apply Hfill.
Qed.

(** X5. Update, then read. Under the primary key, once [update_task]
    has returned the updated task, [get_task] returns that very task for
    the same identifier and identity. *)
Theorem update_then_read (now : datetime) (task_id uid : string)
    (req : TaskUpdate.t) (s s' : Session) (t' : Task.t)
    (PK : tasks_pk s)
    (Hupdate : update_task now task_id req uid s = (inr t', s')) :
  get_task task_id uid s' = (inr t', s').
Proof.
  apply update_task_success in Hupdate as (t & Hf & Ht' & _ & Hs').
  apply first_owned_some in Hf as (Hin & Hid & Hu).
  destruct (updated_key now t (TaskUpdate.model_dump_exclude_unset req)) as [K1 K2].
  rewrite <- Ht' in K1, K2.
  assert (tasks_pk s') as PK'
    by (subst s'; unfold tasks_pk; cbn [tasks]; now rewrite map_replace_ids).
  assert (In t' (tasks s')) as Hin'
    by (subst s'; cbn [tasks]; now apply (in_replaced t t')).
  unfold get_task. rewrite <- Hid, <- Hu, <- K1, <- K2.
  now rewrite (first_owned_pk s' t' PK' Hin').
Qed.

(** X6. Delete, then read. Once [delete_task] has confirmed, no task
    with that identifier is stored: reading it and deleting it again
    both give the uniform not-found, for every identity; the other rows
    are all still there, and under the primary key exactly one row is
    gone. *)
Theorem delete_then_read (task_id uid : string) (s s' : Session) (m : string)
    (Hdelete : delete_task task_id uid s = (inr m, s')) :
  m = "Task deleted successfully"
  /\ (forall who, get_task task_id who s' = (inl not_found, s'))
  /\ (forall who, delete_task task_id who s' = (inl not_found, s'))
  /\ (forall r, In r (tasks s') <-> In r (tasks s) /\ Task.id r <> task_id)
  /\ users s' = users s
  /\ (tasks_pk s -> (length (tasks s') + 1 = length (tasks s))%nat).
Proof.
  assert (m = "Task deleted successfully") as Hm.
  { unfold delete_task in Hdelete.
    destruct (first (owned_by task_id uid) (tasks s)); now inversion Hdelete. }
  apply delete_task_success in Hdelete as (t & Hf & ->).
  assert (forall r,
            In r (filter (fun r => negb (String.eqb (Task.id r) task_id)) (tasks s))
            <-> In r (tasks s) /\ Task.id r <> task_id) as Hmem.
  { intros r. rewrite filter_In, negb_true_iff, String.eqb_neq. tauto. }
  assert (forall who,
            first (owned_by task_id who)
              (filter (fun r => negb (String.eqb (Task.id r) task_id)) (tasks s)) = None)
    as Hgone.
  { intros who. apply first_absent. intros r Hr. apply Hmem in Hr as [_ Hne].
    destruct (owned_by task_id who r) eqn:Ho; [|reflexivity].
    apply owned_by_true in Ho as [Hid _]. contradiction. }
  split; [exact Hm|]. split; [|split; [|split; [|split]]].
  - intros who. unfold get_task. cbn [tasks]. now rewrite Hgone.
  - intros who. unfold delete_task. cbn [tasks]. now rewrite Hgone.
  - exact Hmem.
  - reflexivity.
  - intros PK. cbn [tasks]. apply first_owned_some in Hf as (Hin & Hid & _).
    apply (length_remove_key Task.id _ (tasks s) t PK Hin).
    intros r _. rewrite negb_false_iff, String.eqb_eq. rewrite Hid. tauto.
Qed.

(** X7. A required column cannot be cleared. An update of a task the
    caller owns that sets [title] or [is_completed] to [null] passes the
    handler's checks, is refused by the NOT NULL column when the session
    commits, and is answered with the catch-all 500; nothing is
    written. *)
Theorem update_null_required_field (now : datetime) (task_id uid : string)
    (req : TaskUpdate.t) (s : Session) (t : Task.t)
    (Hfound : first (owned_by task_id uid) (tasks s) = Some t)
    (Hnull : TaskUpdate.title req = Some None \/ TaskUpdate.is_completed req = Some None) :
  update_task now task_id req uid s = (inl RaiseOther, s)
  /\ outcome RaiseOther = (500, JStr "SERVER_ERROR", JStr "Something went wrong").
Proof.
  split; [|reflexivity].
  unfold update_task. rewrite Hfound.
  destruct (TaskUpdate.model_dump_exclude_unset req) as [|i items] eqn:Hd.
  - apply dump_empty in Hd. subst req. simpl in Hnull. intuition discriminate.
  - rewrite <- Hd.
    destruct (apply_updates_fields t req) as (F1 & _ & _ & F4 & _).
    unfold update_task_row, task_not_null, set_updated_at.
    cbn [Task.title Task.is_completed]. rewrite F1, F4.
    destruct Hnull as [H|H]; rewrite H; [reflexivity|].
    destruct (TaskUpdate.title req) as [[x|]|]; try reflexivity.
    destruct (Task.title t); reflexivity.
Qed.

End TaskWriteFlows.

Section TaskWriteFlowWitnesses.
Import Errors Database Tasks Spec.

Lemma session0_invariant : db_invariant Fixtures.session0.
Proof.
  unfold db_invariant, tasks_pk, tasks_fk, tasks_filled, users_pk, users_unique_email.
  simpl. repeat split.
  - repeat constructor; simpl; intuition discriminate.
  - intros t [<-|[<-|[]]]; [exists Fixtures.alice | exists Fixtures.bob]; simpl; auto.
  - intros t [<-|[<-|[]]]; reflexivity.
  - repeat constructor; simpl; intuition discriminate.
  - repeat constructor; simpl; intuition discriminate.
Defined.

Lemma task_handlers_keep_constraints_witness :
  db_invariant Fixtures.session0
  /\ db_invariant
       (snd (create_task "t-3" 200 201 (TaskCreate.mk "Call mum" None None false)
               "u-alice" Fixtures.session0)).
Proof.
  split; [exact session0_invariant|].
  exact (proj1 (task_handlers_keep_constraints "t-3" 200 201 500
                  (TaskCreate.mk "Call mum" None None false)
                  (TaskUpdate.mk None None None (Some (Some true)))
                  "t-1" "u-alice" Fixtures.session0 session0_invariant)).
Defined.

Lemma update_then_read_witness :
  let req := TaskUpdate.mk (Some (Some "Buy food")) None None None in
  let t' := Task.mk "t-1" "u-alice" (Some "Buy food") (Some "Milk, eggs, bread")
              (Some 20500) (Some false) 100 500 in
  let s' := mkSession [Fixtures.alice; Fixtures.bob] [t'; Fixtures.task_b] in
  tasks_pk Fixtures.session0
  /\ update_task 500 "t-1" req "u-alice" Fixtures.session0 = (inr t', s')
  /\ get_task "t-1" "u-alice" s' = (inr t', s').
Proof.
  intros req t' s'.
  assert (tasks_pk Fixtures.session0) as PK by exact (proj1 session0_invariant).
  assert (update_task 500 "t-1" req "u-alice" Fixtures.session0 = (inr t', s')) as Hrun
    by reflexivity.
  split; [exact PK|]. split; [exact Hrun|].
  exact (update_then_read 500 "t-1" "u-alice" req Fixtures.session0 s' t' PK Hrun).
Defined.

Lemma delete_then_read_witness :
  let s' := mkSession [Fixtures.alice; Fixtures.bob] [Fixtures.task_b] in
  delete_task "t-1" "u-alice" Fixtures.session0 = (inr "Task deleted successfully", s')
  /\ get_task "t-1" "u-alice" s' = (inl not_found, s')
  /\ delete_task "t-1" "u-alice" s' = (inl not_found, s').
Proof.
  intros s'.
  assert (delete_task "t-1" "u-alice" Fixtures.session0
          = (inr "Task deleted successfully", s')) as Hrun by reflexivity.
  split; [exact Hrun|].
  destruct (delete_then_read "t-1" "u-alice" Fixtures.session0 s' _ Hrun)
    as (_ & Hget & Hdel & _).
  split; [apply Hget | apply Hdel].
Defined.

Lemma update_null_required_field_witness :
  first (owned_by "t-1" "u-alice") (tasks Fixtures.session0) = Some Fixtures.task_a
  /\ update_task 500 "t-1" (TaskUpdate.mk (Some None) None None None) "u-alice"
       Fixtures.session0 = (inl RaiseOther, Fixtures.session0).
Proof.
  split; [reflexivity|].
  apply (update_null_required_field 500 "t-1" "u-alice"
           (TaskUpdate.mk (Some None) None None None) Fixtures.session0
           Fixtures.task_a eq_refl).
  left. reflexivity.
Defined.

End TaskWriteFlowWitnesses.

(** ** The bearer extractor and the two gates *)

Section BearerLemmas.
Import Errors Dependencies Spec.

Lemma lower_ascii_space (c : ascii) :
  Ascii.eqb (lower_ascii c) " " = Ascii.eqb c " ".
Proof.
  destruct c as [[] [] [] [] [] [] [] []]; reflexivity.
Qed.

Lemma has_space_lower (s : string) : has_space (lower s) = has_space s.
Proof.
  induction s as [|c s IH]; simpl; [reflexivity|].
  now rewrite lower_ascii_space, IH.
Qed.

Lemma partition_space_join (a b : string) :
  has_space a = false -> partition_space (a ++ " " ++ b) = (a, b).
Proof.
  induction a as [|c a IH]; simpl in *; [reflexivity|].
  intros H. apply orb_false_iff in H as [Hc Ha].
  rewrite Hc, (IH Ha). reflexivity.
Qed.

Lemma partition_space_split (h a b : string) :
  partition_space h = (a, b) -> b <> "" -> h = a ++ " " ++ b /\ has_space a = false.
Proof.
  revert a b. induction h as [|c h IH]; simpl; intros a b H Hb.
  - inversion H; subst. contradiction.
  - destruct (Ascii.eqb c " ") eqn:Hc.
    + inversion H; subst. apply Ascii.eqb_eq in Hc. now subst.
    + destruct (partition_space h) as [a' b'] eqn:Hp. inversion H; subst.
      destruct (IH a' b eq_refl Hb) as [-> Ha]. simpl. now rewrite Hc.
Qed.

Lemma lower_bearer_shape (sch : string) :
  lower sch = "bearer" -> has_space sch = false /\ sch <> "".
Proof.
  intros H. split.
  - rewrite <- has_space_lower, H. reflexivity.
  - intros ->. discriminate.
Qed.

End BearerLemmas.

Section BearerTheorems.
Import Errors Dependencies Spec.

(** [auto_error] only chooses between raising and [None]: with
    [auto_error=False] the extractor returns [None] exactly where
    [HTTPBearer()] raises, and the same credentials where it returns
    some. *)
Lemma HTTPBearer_modes (fw : Framework) (authorization : option string) :
  match HTTPBearer fw true authorization, HTTPBearer fw false authorization with
  | inl _, inr None => True
  | inr (Some creds), inr (Some creds') => creds = creds'
  | _, _ => False
  end.
Proof.
  unfold HTTPBearer.
  destruct (get_authorization_scheme_param fw authorization) as [sch cred].
  destruct (negb _); [exact I|]. destruct (negb _); [exact I | reflexivity].
Qed.

End BearerTheorems.

Section GateTheorems.
Import Errors Dependencies Spec.

Variable lib : Jwt.Jose.
Variable settings : Config.Settings.

(** X8. Outcomes of the optional gate. Where the protected gate would
    find no bearer credential (no header, another scheme, an empty
    token) the optional gate yields no identity and does not reject. A
    bearer token that does not verify is rejected as UNAUTHORIZED. A
    token that verifies yields its [sub] claim as it is: a payload
    without [sub] yields no identity instead of a rejection. An
    exception that [verify_token] lets through passes the gate as it
    is. Whenever the protected gate yields an identity, the optional
    gate yields the same one. *)
Theorem optional_gate_outcomes (fw : Framework) (now : datetime)
    (authorization : option string) :
  let gate := optional_gate lib settings fw now authorization in
  match HTTPBearer fw true authorization with
  | inl _ => gate = inr None
  | inr None => False
  | inr (Some creds) =>
      match Jwt.verify_token lib settings now (credentials creds) with
      | inl e => gate = inl e
      | inr None | inr (Some []) => exists e, gate = inl e /\ unauthorized e
      | inr (Some payload) => gate = inr (dict_get payload "sub")
      end
  end
  /\ (forall v,
        protected_gate lib settings fw now authorization = inr v ->
        gate = inr (Some v)).
Proof.
  intros gate. subst gate. unfold optional_gate, protected_gate.
  pose proof (HTTPBearer_modes fw authorization) as Hoff.
  destruct (HTTPBearer fw true authorization) as [e|[creds|]] eqn:Hon;
    destruct (HTTPBearer fw false authorization) as [e'|[creds'|]] eqn:Hof;
    try contradiction.
  - split; [reflexivity | discriminate].
  - subst creds'. unfold get_current_user_optional, get_current_user.
    destruct (Jwt.verify_token lib settings now (credentials creds))
      as [e|[[|kv payload]|]].
    + split; [reflexivity | discriminate].
    + split; [|discriminate].
      eexists; split; [reflexivity | apply raise_unauthorized_is_unauthorized].
    + split; [reflexivity|]. intros v.
      destruct (dict_get (kv :: payload) "sub") as [sub|]; [|discriminate].
      destruct (truthy sub); [|discriminate]. now inversion 1.
    + split; [|discriminate].
      eexists; split; [reflexivity | apply raise_unauthorized_is_unauthorized].
Qed.

(** X9. [extract_user_id] and the gate read the same claim.
    [get_current_user] returns an identity exactly when
    [extract_user_id] returns that value for the token and the value is
    truthy; where [extract_user_id] returns an empty subject, the gate
    rejects. *)
Theorem extract_user_id_agrees (now : datetime) (creds : HTTPAuthorizationCredentials)
    (v : JsonValue) :
  get_current_user lib settings now creds = inr v
  <-> (Jwt.extract_user_id lib settings now (credentials creds) = inr (Some v)
       /\ truthy v = true).
Proof.
  unfold get_current_user, Jwt.extract_user_id.
  destruct (Jwt.verify_token lib settings now (credentials creds))
    as [e|[[|kv payload]|]].
  - split; [discriminate | intros [H _]; discriminate].
  - split; [discriminate | intros [H _]; discriminate].
  - destruct (dict_get (kv :: payload) "sub") as [sub|].
    + destruct (truthy sub) eqn:Ht; split.
      * intros H; inversion H; subst. auto.
      * intros [H _]; now inversion H.
      * discriminate.
      * intros [H Hv]. inversion H; subst. congruence.
    + split; [discriminate | intros [H _]; discriminate].
  - split; [discriminate | intros [H _]; discriminate].
Qed.

(** X10. The two rejections of [get_current_user] share status and
    error code but not the message: a token that does not verify (or
    whose payload is empty) is answered "Missing or invalid
    authentication token", a verified payload without a usable [sub]
    is answered "Invalid token structure". An exception that
    [verify_token] lets through is the one the gate raises. *)
Theorem get_current_user_rejections (now : datetime)
    (creds : HTTPAuthorizationCredentials) :
  match get_current_user lib settings now creds,
        Jwt.verify_token lib settings now (credentials creds) with
  | inr v, inr (Some payload) => dict_get payload "sub" = Some v /\ truthy v = true
  | inr _, inr None => False
  | inr _, inl _ => False
  | inl e, inl e' => e = e'
  | inl e, inr None | inl e, inr (Some []) =>
      outcome e
      = (401, JStr "UNAUTHORIZED", JStr "Missing or invalid authentication token")
  | inl e, inr (Some payload) =>
      truthy_opt (dict_get payload "sub") = false
      /\ outcome e = (401, JStr "UNAUTHORIZED", JStr "Invalid token structure")
  end.
Proof.
  unfold get_current_user.
  destruct (Jwt.verify_token lib settings now (credentials creds))
    as [e|[[|kv payload]|]];
    [reflexivity|reflexivity| |reflexivity].
  destruct (dict_get (kv :: payload) "sub") as [sub|] eqn:Hs; [|split; reflexivity].
  destruct (truthy sub) eqn:Ht; [split; [reflexivity | exact Ht]|].
  split; [exact Ht | reflexivity].
Qed.

End GateTheorems.

(** ** The error layer *)

Section ErrorLayerLemmas.
Import Errors.

Lemma dict_get_set (d : Dict) (k k' : string) (v : JsonValue) :
  dict_get (dict_set d k v) k' = if String.eqb k k' then Some v else dict_get d k'.
Proof.
  induction d as [|[k0 v0] d IH]; simpl.
  - reflexivity.
  - destruct (String.eqb k0 k) eqn:E0; simpl.
    + apply String.eqb_eq in E0. subst k0.
      destruct (String.eqb k k'); reflexivity.
    + rewrite IH. destruct (String.eqb k0 k') eqn:E1; [|reflexivity].
      apply String.eqb_eq in E1. subst k0. now rewrite String.eqb_sym, E0.
Qed.

Lemma dict_set_keys (d : Dict) (k : string) (v : JsonValue) :
  forall x, In x (map fst (dict_set d k v)) <-> x = k \/ In x (map fst d).
Proof.
  induction d as [|[k0 v0] d IH]; simpl; intros x.
  - intuition.
  - destruct (String.eqb k0 k) eqn:E0; simpl.
    + apply String.eqb_eq in E0. subst k0. intuition.
    + rewrite IH. intuition.
Qed.

Lemma dict_set_nodup (d : Dict) (k : string) (v : JsonValue) :
  NoDup (map fst d) -> NoDup (map fst (dict_set d k v)).
Proof.
  induction d as [|[k0 v0] d IH]; simpl; intros Hnd.
  - constructor; [tauto | constructor].
  - inversion Hnd as [|? ? Hnotin Hnd']; subst.
    destruct (String.eqb k0 k) eqn:E0; simpl.
    + constructor; assumption.
    + constructor; [|auto]. intros Hin. apply dict_set_keys in Hin as [->|Hin].
      * now rewrite String.eqb_refl in E0.
      * contradiction.
Qed.

Lemma find_snoc {A : Type} (p : A -> bool) (l : list A) (a : A) :
  find p (l ++ [a])
  = match find p l with
    | Some x => Some x
    | None => if p a then Some a else None
    end.
Proof.
  induction l as [|x l IH]; simpl; [reflexivity|]. destruct (p x); auto.
Qed.

(** After the loop, a key holds the message of the last error filed
    under it. *)
Lemma collect_lookup (field : ValidationItem -> string)
    (errors : list ValidationItem) (d : Dict) (f : string) :
  dict_get (fold_left (fun details e => dict_set details (field e) (JStr (msg e)))
              errors d) f
  = match find (fun e => String.eqb (field e) f) (rev errors) with
    | Some e => Some (JStr (msg e))
    | None => dict_get d f
    end.
Proof.
  revert d. induction errors as [|e errors IH]; intros d; simpl; [reflexivity|].
  rewrite IH, find_snoc, dict_get_set.
  destruct (find _ (rev errors)); [reflexivity|].
  destruct (String.eqb (field e) f); reflexivity.
Qed.

Lemma collect_nodup (field : ValidationItem -> string)
    (errors : list ValidationItem) (d : Dict) :
  NoDup (map fst d) ->
  NoDup (map fst (fold_left (fun details e => dict_set details (field e) (JStr (msg e)))
                    errors d)).
Proof.
  revert d. induction errors as [|e errors IH]; intros d Hnd; simpl; [exact Hnd|].
  apply IH. now apply dict_set_nodup.
Qed.

End ErrorLayerLemmas.

Section ErrorLayerTheorems.
Import Errors.

(** The field names at work: the [body] prefix is dropped, an index is
    printed in decimal. *)
Example request_field_runs :
  request_field
    (mkValidationItem [LocStr "body"; LocStr "items"; LocInt 10; LocStr "name"]
       "Field required")
  = "items.10.name".
Proof. reflexivity. Qed.

(** X11. The details of a validation response. Both validation
    handlers answer 422 VALIDATION_ERROR "Validation failed" with a
    details object in which no key occurs twice and each key holds the
    message of the last error filed under it; a key under which no
    error was filed is missing. For request errors the [body] segments
    of a location do not count, so that two locations that differ only
    by them share one key. *)
Theorem validation_details_last_wins (errors : list ValidationItem) :
  (exists d,
      validation_exception_handler errors
      = mkJSONResponse 422
          (mkErrorContent (JStr "VALIDATION_ERROR") (JStr "Validation failed")
             (Some (JObj d)))
      /\ NoDup (map fst d)
      /\ forall f,
           dict_get d f
           = match find (fun e => String.eqb (request_field e) f) (rev errors) with
             | Some e => Some (JStr (msg e))
             | None => None
             end)
  /\ (exists d,
        pydantic_validation_handler errors
        = mkJSONResponse 422
            (mkErrorContent (JStr "VALIDATION_ERROR") (JStr "Validation failed")
               (Some (JObj d)))
        /\ NoDup (map fst d)
        /\ forall f,
             dict_get d f
             = match find (fun e => String.eqb (model_field e) f) (rev errors) with
               | Some e => Some (JStr (msg e))
               | None => None
               end)
  /\ (forall before after m,
        request_field (mkValidationItem (before ++ LocStr "body" :: after) m)
        = request_field (mkValidationItem (before ++ after) m)).
Proof.
  split; [|split].
  - exists (collect_details request_field errors). split; [reflexivity|].
    split; [apply collect_nodup; constructor|].
    intros f. unfold collect_details. now rewrite collect_lookup.
  - exists (collect_details model_field errors). split; [reflexivity|].
    split; [apply collect_nodup; constructor|].
    intros f. unfold collect_details. now rewrite collect_lookup.
  - intros before after m. unfold request_field. cbn [loc].
    now rewrite !filter_app.
Qed.

(** X12. The helpers and the status table agree. For a message that is
    not empty, the response to an exception raised by
    [raise_unauthorized], [raise_forbidden], [raise_not_found],
    [raise_conflict] or [raise_bad_request] is the response the handler
    gives to an [HTTPException] of the same status whose detail is the
    bare message: the error code a helper writes is the one
    [_get_error_code_from_status] has for its status. *)
Theorem helpers_agree_with_status_table (msg : string) (Hmsg : msg <> "") :
  error_response (raise_unauthorized msg)
  = http_exception_handler (mkHTTPException 401 (DetailStr msg))
  /\ error_response (raise_forbidden msg)
     = http_exception_handler (mkHTTPException 403 (DetailStr msg))
  /\ error_response (raise_not_found msg)
     = http_exception_handler (mkHTTPException 404 (DetailStr msg))
  /\ error_response (raise_conflict msg)
     = http_exception_handler (mkHTTPException 409 (DetailStr msg))
  /\ error_response (raise_bad_request msg None)
     = http_exception_handler (mkHTTPException 400 (DetailStr msg))
  /\ error_response (raise_bad_request msg (Some []))
     = http_exception_handler (mkHTTPException 400 (DetailStr msg)).
Proof.
  apply String.eqb_neq in Hmsg.
  unfold error_response, http_exception_handler; simpl. rewrite Hmsg.
  repeat split.
Qed.

Lemma helpers_agree_with_status_table_witness :
  error_response (raise_not_found "Task not found")
  = http_exception_handler (mkHTTPException 404 (DetailStr "Task not found")).
Proof.
  destruct (helpers_agree_with_status_table "Task not found") as (_ & _ & H & _).
  - discriminate.
  - exact H.
Defined.

End ErrorLayerTheorems.

(** ** Registration, login and the token they issue *)

Section AccountFlowLemmas.
Import Errors Database Auth Spec.

Variable jose : Jwt.Jose.
Variable bcrypt : Password.Bcrypt.
Variable settings : Config.Settings.
Variable utc_offset : datetime -> option Z.

(** A hash the library has just made verifies for the password it was
    made from, whatever the length of the password. *)
Lemma hashpw_then_checkpw (password salt h : string) :
  Password.hashpw bcrypt password salt = inr h ->
  Password.checkpw bcrypt password h = inr true.
Proof.
  unfold Password.checkpw, Password.hashpw.
  set (salt29 := substring 0 29 salt).
  destruct (String.length salt29 =? 29)%nat eqn:Hlen; [|discriminate].
  destruct (Password.valid_salt bcrypt salt29) eqn:Hv; [|discriminate]. simpl.
  apply Nat.eqb_eq in Hlen.
  assert (forall d, substring 0 29 (salt29 ++ d) = salt29) as Hpre
    by (intros d; rewrite <- Hlen; apply substring_prefix).
  destruct (72 <? String.length password)%nat.
  - destruct (Password.rejects_long bcrypt); [discriminate|].
    intros H; inversion H; subst. rewrite Hpre, Hlen, Hv. simpl.
    now rewrite String.eqb_refl.
  - intros H; inversion H; subst. rewrite Hpre, Hlen, Hv. simpl.
    now rewrite String.eqb_refl.
Qed.

Lemma existsb_email_false (email : string) (rows : list User.t) :
  existsb (fun r => String.eqb (User.email r) email) rows = false ->
  forall u, In u rows -> User.email u <> email.
Proof.
  intros H u Hin Heq.
  assert (existsb (fun r => String.eqb (User.email r) email) rows = true) as Ht
    by (apply existsb_exists; exists u; split; [exact Hin | now apply String.eqb_eq]).
  congruence.
Qed.

Lemma existsb_uid_false (uid : string) (rows : list User.t) :
  existsb (fun r => String.eqb (User.id r) uid) rows = false ->
  forall u, In u rows -> User.id u <> uid.
Proof.
  intros H u Hin Heq.
  assert (existsb (fun r => String.eqb (User.id r) uid) rows = true) as Ht
    by (apply existsb_exists; exists u; split; [exact Hin | now apply String.eqb_eq]).
  congruence.
Qed.

(** What [create_access_token] raises is the one uncaught exception. *)
Lemma create_access_token_raises (now : datetime) (uid email : string) (e : Raised) :
  Jwt.create_access_token jose settings utc_offset now uid email = inl e ->
  e = RaiseOther.
Proof.
  unfold Jwt.create_access_token.
  destruct (Jwt.access_token_payload _ _ _ _ _); [|now inversion 1].
  destruct (Jwt.jwt_encode _ _ _ _); [discriminate | now inversion 1].
Qed.

(** How far [register] got when it wrote the row: no user had the
    e-mail or the identifier, and the password was hashed. *)
Lemma register_wrote (rand new_id : string) (now_row now_token : datetime)
    (request : RegisterRequest.t) (s s' : Session) (x : Raised + AuthResponse.t) :
  register jose bcrypt settings utc_offset rand new_id now_row now_token request s
  = (x, s') ->
  s' = s
  \/ exists h,
       Password.hash_password bcrypt rand (RegisterRequest.password request) = inr h
       /\ s' = mkSession (users s ++ [User.mk new_id (RegisterRequest.email request) h now_row]) (tasks s)
       /\ (forall u, In u (users s) -> User.email u <> RegisterRequest.email request)
       /\ (forall u, In u (users s) -> User.id u <> new_id)
       /\ match x with
          | inr r =>
              exists token,
                Jwt.create_access_token jose settings utc_offset now_token new_id
                  (RegisterRequest.email request) = inr token
                /\ r = AuthResponse.mk new_id (RegisterRequest.email request) token
          | inl e =>
              Jwt.create_access_token jose settings utc_offset now_token new_id
                (RegisterRequest.email request) = inl e
          end.
Proof.
  unfold register.
  destruct (first _ (users s)) as [u|] eqn:Hf; [inversion 1; now left|].
  destruct (Password.hash_password bcrypt rand (RegisterRequest.password request))
    as [err|h]; [inversion 1; now left|].
  unfold insert_user. cbn [User.id User.email].
  destruct (existsb (fun r => String.eqb (User.id r) new_id) (users s)) eqn:Hid;
    [inversion 1; now left|].
  destruct (existsb (fun r => String.eqb (User.email r) (RegisterRequest.email request))
              (users s)) eqn:Hmail; [inversion 1; now left|].
  intros H. right. exists h.
  split; [reflexivity|].
  destruct (Jwt.create_access_token jose settings utc_offset now_token new_id
              (RegisterRequest.email request)) as [e|token];
    inversion H; subst; (split; [reflexivity|]);
    (split; [exact (existsb_email_false _ _ Hmail)|]);
    (split; [exact (existsb_uid_false _ _ Hid)|]).
  - reflexivity.
  - exists token. split; reflexivity.
Qed.

(** What [register] did when it returned. *)
Lemma register_success (rand new_id : string) (now_row now_token : datetime)
    (request : RegisterRequest.t) (s s' : Session) (r : AuthResponse.t) :
  register jose bcrypt settings utc_offset rand new_id now_row now_token request s
  = (inr r, s') ->
  exists h token,
    Password.hash_password bcrypt rand (RegisterRequest.password request) = inr h
    /\ s' = mkSession (users s ++ [User.mk new_id (RegisterRequest.email request) h now_row]) (tasks s)
    /\ Jwt.create_access_token jose settings utc_offset now_token new_id
         (RegisterRequest.email request) = inr token
    /\ r = AuthResponse.mk new_id (RegisterRequest.email request) token
    /\ (forall u, In u (users s) -> User.email u <> RegisterRequest.email request)
    /\ (forall u, In u (users s) -> User.id u <> new_id).
Proof.
  unfold register.
  destruct (first _ (users s)) as [u|] eqn:Hf; [discriminate|].
  destruct (Password.hash_password bcrypt rand (RegisterRequest.password request))
    as [err|h]; [discriminate|].
  unfold insert_user. cbn [User.id User.email].
  destruct (existsb (fun r => String.eqb (User.id r) new_id) (users s)) eqn:Hid;
    [discriminate|].
  destruct (existsb (fun r => String.eqb (User.email r) (RegisterRequest.email request))
              (users s)) eqn:Hmail; [discriminate|].
  destruct (Jwt.create_access_token jose settings utc_offset now_token new_id
              (RegisterRequest.email request)) as [e|token]; [discriminate|].
  intros H. inversion H; subst. exists h, token. repeat split.
  - exact (existsb_email_false _ _ Hmail).
  - exact (existsb_uid_false _ _ Hid).
Qed.

(** Adding a row with a fresh identifier and a fresh e-mail keeps the
    constraints of the schema. *)
Lemma new_user_keeps_constraints (s : Session) (u : User.t) :
  db_invariant s ->
  (forall v, In v (users s) -> User.email v <> User.email u) ->
  (forall v, In v (users s) -> User.id v <> User.id u) ->
  db_invariant (mkSession (users s ++ [u]) (tasks s)).
Proof.
  intros (Hpk & Hfk & Hfill & Hupk & Humail) Hmail Hid.
  repeat split; try assumption.
  - intros t Hin. cbn [tasks users] in *. destruct (Hfk t Hin) as (v & Hv & Hown).
    exists v. split; [apply in_or_app; now left | exact Hown].
  - unfold users_pk. cbn [users]. rewrite map_app. simpl.
    apply nodup_snoc; [exact Hupk|]. intros Hin.
    apply in_map_iff in Hin as (v & Hv & Hinv). exact (Hid v Hinv Hv).
  - unfold users_unique_email. cbn [users]. rewrite map_app. simpl.
    apply nodup_snoc; [exact Humail|]. intros Hin.
    apply in_map_iff in Hin as (v & Hv & Hinv). exact (Hmail v Hinv Hv).
Qed.

End AccountFlowLemmas.

Section AccountFlows.
Import Errors Database Auth Spec.

Variable jose : Jwt.Jose.
Variable bcrypt : Password.Bcrypt.
Variable settings : Config.Settings.
Variable utc_offset : datetime -> option Z.

(** X13. Outcomes of [register]. It succeeds exactly when no user has
    the e-mail, the password can be hashed, the drawn identifier is
    free and the token can be issued: one row is appended, holding the
    e-mail and the hash that [hash_password] returned, and the answer
    carries the new identifier, the e-mail and the token issued for the
    two. A taken e-mail is the 409 conflict; a password the library
    refuses or a taken identifier surfaces as the catch-all error; these
    failures leave the session as it was. When the row could be written
    and [create_access_token] raises, the answer is the catch-all error
    as well, and the row stays in the table: the commit came first. *)
Theorem register_outcomes (rand new_id : string) (now_row now_token : datetime)
    (request : RegisterRequest.t) (s : Session) :
  let email := RegisterRequest.email request in
  let issued := Jwt.create_access_token jose settings utc_offset now_token new_id email in
  match register jose bcrypt settings utc_offset rand new_id now_row now_token
          request s with
  | (inr r, s') =>
      (forall u, In u (users s) -> User.email u <> email /\ User.id u <> new_id)
      /\ exists h token,
           Password.hash_password bcrypt rand (RegisterRequest.password request) = inr h
           /\ issued = inr token
           /\ s' = mkSession (users s ++ [User.mk new_id email h now_row]) (tasks s)
           /\ r = AuthResponse.mk new_id email token
  | (inl e, s') =>
      (s' = s
       /\ e = raise_conflict "Email already registered"
       /\ exists u, In u (users s) /\ User.email u = email)
      \/ (s' = s
          /\ e = RaiseOther
          /\ (forall u, In u (users s) -> User.email u <> email)
          /\ ((exists err,
                 Password.hash_password bcrypt rand (RegisterRequest.password request)
                 = inl err)
              \/ exists u, In u (users s) /\ User.id u = new_id))
      \/ (e = RaiseOther
          /\ outcome e = (500, JStr "SERVER_ERROR", JStr "Something went wrong")
          /\ issued = inl RaiseOther
          /\ (forall u, In u (users s) -> User.email u <> email /\ User.id u <> new_id)
          /\ exists h,
               Password.hash_password bcrypt rand (RegisterRequest.password request)
               = inr h
               /\ s' = mkSession (users s ++ [User.mk new_id email h now_row]) (tasks s)
               /\ s' <> s)
  end.
Proof.
  intros email issued.
  destruct (register jose bcrypt settings utc_offset rand new_id now_row now_token
              request s) as [[e|r] s'] eqn:Hrun.
  - unfold register in Hrun. fold email in Hrun.
    destruct (first (fun u => String.eqb (User.email u) email) (users s)) as [u|] eqn:Hf.
    + inversion Hrun; subst. left. split; [reflexivity|]. split; [reflexivity|].
      apply first_some in Hf as [Hin He]. exists u. split; [exact Hin|].
      now apply String.eqb_eq.
    + assert (forall u, In u (users s) -> User.email u <> email) as Hfree.
      { intros u Hin. apply String.eqb_neq. exact (first_none _ _ Hf u Hin). }
      destruct (Password.hash_password bcrypt rand (RegisterRequest.password request))
        as [err|h].
      * inversion Hrun; subst. right; left. repeat split; auto. left. now exists err.
      * unfold insert_user in Hrun. cbn [User.id User.email] in Hrun.
        destruct (existsb (fun r => String.eqb (User.id r) new_id) (users s)) eqn:Hid.
        -- inversion Hrun; subst. right; left. repeat split; auto. right.
           apply existsb_exists in Hid as (u & Hin & Hu). exists u.
           split; [exact Hin | now apply String.eqb_eq].
        -- destruct (existsb (fun r => String.eqb (User.email r) email) (users s)) eqn:Hm.
           { apply existsb_exists in Hm as (u & Hin & Hu). apply String.eqb_eq in Hu.
             exfalso. exact (Hfree u Hin Hu). }
           fold issued in Hrun.
           destruct issued as [e'|token] eqn:Hissue; [|discriminate].
           pose proof (create_access_token_raises jose settings utc_offset _ _ _ _ Hissue)
             as ->.
           inversion Hrun; subst. right; right.
           split; [reflexivity|]. split; [reflexivity|]. split; [reflexivity|].
           split.
           { intros u Hin. split; [now apply Hfree|].
             exact (existsb_uid_false _ _ Hid u Hin). }
           exists h. split; [reflexivity|]. split; [reflexivity|].
           intros Heq. apply (f_equal (fun x => length (users x))) in Heq.
           cbn [users] in Heq. rewrite length_app in Heq. simpl in Heq. lia.
  - apply register_success in Hrun as (h & token & Hh & -> & Ht & -> & Hmail & Hid).
    split; [intros u Hin; split; auto|]. exists h, token. auto.
Qed.

(** X14. [register] keeps the constraints of the schema, and a user who
    has just registered has no task: on a session that satisfies the
    constraints, the session [register] leaves satisfies them again,
    and after a success the list of the new user's tasks is the empty
    list, returned as a success. *)
Theorem register_keeps_constraints (order : RowOrder) (rand new_id : string)
    (now_row now_token : datetime)
    (request : RegisterRequest.t) (s : Session) (Hinv : db_invariant s) :
  match register jose bcrypt settings utc_offset rand new_id now_row now_token
          request s with
  | (inr r, s') =>
      db_invariant s' /\ Tasks.get_tasks order (AuthResponse.user_id r) s' = (inr [], s')
  | (inl _, s') => db_invariant s'
  end.
Proof.
  destruct (register jose bcrypt settings utc_offset rand new_id now_row now_token
              request s) as [[e|r] s'] eqn:Hrun.
  - apply register_wrote in Hrun as [->|(h & _ & -> & Hmail & Hid & _)];
      [exact Hinv|].
    now apply new_user_keeps_constraints.
  - apply register_success in Hrun as (h & token & _ & -> & _ & -> & Hmail & Hid).
    split; [now apply new_user_keeps_constraints|].
    destruct Hinv as (Hpk & Hfk & Hfill & Hupk & Humail).
    unfold Tasks.get_tasks. cbn [tasks AuthResponse.user_id]. f_equal. f_equal.
    apply Permutation_nil. apply Permutation_sym.
    eapply Permutation_trans; [apply all_permutation|].
    destruct (filter (fun t => String.eqb (Task.user_id t) new_id) (tasks s))
      as [|t l] eqn:Hfil; [reflexivity|]. exfalso.
    assert (In t (filter (fun t => String.eqb (Task.user_id t) new_id) (tasks s)))
      as Hin by (rewrite Hfil; now left).
    apply filter_In in Hin as [Hin Hown]. apply String.eqb_eq in Hown.
    destruct (Hfk t Hin) as (u & Hu & Hu'). apply (Hid u Hu). congruence.
Qed.

(** X15. Register, then log in. After a registration that succeeded, a
    login with the same e-mail and the same password on the session it
    left finds the new user and accepts the password: it returns the
    identifier and the e-mail of the new user with the token issued for
    them at the time of the login (or lets the exception of
    [create_access_token] through, should it raise at that time), and
    writes nothing. *)
Theorem register_then_login (rand new_id : string) (now_row now_token now : datetime)
    (request : RegisterRequest.t) (s s' : Session) (r : AuthResponse.t)
    (Hregister : register jose bcrypt settings utc_offset rand new_id now_row now_token
                   request s = (inr r, s')) :
  login jose bcrypt settings utc_offset now
    (LoginRequest.mk (RegisterRequest.email request) (RegisterRequest.password request)) s'
  = (match Jwt.create_access_token jose settings utc_offset now
             (AuthResponse.user_id r) (AuthResponse.user_email r) with
     | inr token =>
         inr (AuthResponse.mk (AuthResponse.user_id r) (AuthResponse.user_email r) token)
     | inl e => inl e
     end,
     s')
  /\ AuthResponse.user_id r = new_id
  /\ AuthResponse.user_email r = RegisterRequest.email request.
Proof.
  apply register_success in Hregister as (h & token & Hh & -> & _ & -> & Hmail & _).
  split; [|split; reflexivity].
  unfold login. cbn [LoginRequest.email LoginRequest.password users].
  rewrite first_app_last.
  - cbn [User.password_hash User.id User.email AuthResponse.user_id
         AuthResponse.user_email].
    unfold Password.verify_password.
    unfold Password.hash_password in Hh.
    rewrite (hashpw_then_checkpw bcrypt _ _ _ Hh). cbn [negb].
    destruct (Jwt.create_access_token _ _ _ _ _ _); reflexivity.
  - intros u Hin. apply String.eqb_neq. now apply Hmail.
  - apply String.eqb_refl.
Qed.

End AccountFlows.

Section IssuedTokenLemmas.
Import Errors Dependencies Spec.

(** The header [Bearer <token>] with a bare token. *)
Lemma HTTPBearer_bearer_header (fw : Framework) (auto_error : bool) (token : string) :
  bare token ->
  HTTPBearer fw auto_error (Some ("Bearer " ++ token))
  = inr (Some (mkCredentials "Bearer" token)).
Proof.
  intros [Htok Hstrip]. apply String.eqb_neq in Htok.
  unfold HTTPBearer, get_authorization_scheme_param. cbn -[Py.strip].
  rewrite Hstrip.
  destruct (strips_credentials fw); rewrite Htok; reflexivity.
Qed.

End IssuedTokenLemmas.

Section IssuedToken.
Import Errors Dependencies Jwt Spec.

Variable lib : Jose.
Variable settings : Config.Settings.
Variable utc_offset : datetime -> option Z.

(** X16. An issued token at the gate. Let a token be issued at [now]
    for a subject that is not empty, by a library that accepts back what
    it signed. Sent as [Authorization: Bearer <token>] at time [now'],
    it yields the subject as the trusted identity as long as [now'] is
    not past the [exp] claim, and is rejected with 401 "Missing or
    invalid authentication token" from the first second after it. *)
Theorem issued_token_at_gate (fw : Framework) (now now' : datetime)
    (uid email token : string) (payload : Dict) (offset : Z)
    (Hpayload : access_token_payload settings utc_offset now uid email = Some payload)
    (Hlib : signs_and_accepts lib payload (Config.secret_key settings)
              (Config.jwt_algorithm settings) token)
    (Hoffset : utc_offset (now + lifetime settings) = Some offset)
    (Huid : uid <> "")
    (Htoken : bare token) :
  let exp := now + lifetime settings - offset in
  let gate := protected_gate lib settings fw now' (Some ("Bearer " ++ token)) in
  create_access_token lib settings utc_offset now uid email = inr token
  /\ (now' <= exp -> gate = inr (JStr uid))
  /\ (exp < now' ->
      gate = inl (raise_unauthorized "Missing or invalid authentication token")).
Proof.
  intros exp gate. subst gate. unfold protected_gate.
  rewrite (HTTPBearer_bearer_header fw true token Htoken).
  unfold get_current_user. cbn [credentials].
  destruct Hlib as (Hsign & Hv & Hc).
  destruct (payload_claims settings utc_offset now uid email payload Hpayload)
    as (iat & off & Hoff & Hs & _ & Hiat & Hnbf & Hexp & Hne).
  rewrite Hoffset in Hoff. inversion Hoff; subst off. fold exp in Hexp.
  split; [|split; intros Htime].
  - unfold create_access_token, jwt_encode. now rewrite Hpayload, Hsign.
  - rewrite (verify_token_accepts lib settings now' token payload iat exp
               Hv Hc Hiat Hnbf Hexp Htime).
    destruct payload as [|kv rest]; [contradiction|].
    rewrite Hs. cbn [truthy].
    rewrite (proj2 (String.eqb_neq uid "") Huid). reflexivity.
  - rewrite (verify_token_expired lib settings now' token payload exp Hv).
    + reflexivity.
    + rewrite (time_claim_int lib payload "iat" iat Hiat). discriminate.
    + rewrite (time_claim_absent lib payload "nbf" Hnbf). discriminate.
    + now apply time_claim_int.
    + exact Htime.
Qed.

End IssuedToken.

Section AccountFlowWitnesses.
Import Errors Database Auth Dependencies Spec.

Lemma register_keeps_constraints_witness :
  let lib := Fixtures.one_token_jose [] in
  db_invariant Fixtures.session0
  /\ db_invariant
       (snd (register lib (Fixtures.plain_bcrypt false) Fixtures.settings0 Fixtures.utc
               "abcdefghijklmnopqrstuv" "u-carol" 300 301
               (RegisterRequest.mk "carol@example.com" "SecurePass123")
               Fixtures.session0)).
Proof.
  intros lib. split; [exact session0_invariant|].
  pose proof (register_keeps_constraints lib (Fixtures.plain_bcrypt false)
                Fixtures.settings0 Fixtures.utc Fixtures.reverse_order
                "abcdefghijklmnopqrstuv" "u-carol"
                300 301 (RegisterRequest.mk "carol@example.com" "SecurePass123")
                Fixtures.session0 session0_invariant) as H.
  exact (proj1 H).
Defined.

Lemma register_then_login_witness :
  let lib := Fixtures.one_token_jose [] in
  let request := RegisterRequest.mk "carol@example.com" "SecurePass123" in
  let s' := snd (register lib (Fixtures.plain_bcrypt false) Fixtures.settings0
                   Fixtures.utc "abcdefghijklmnopqrstuv" "u-carol" 300 301 request
                   (mkSession [] [])) in
  fst (login lib (Fixtures.plain_bcrypt false) Fixtures.settings0 Fixtures.utc 400
         (LoginRequest.mk "carol@example.com" "SecurePass123") s')
  = inr (AuthResponse.mk "u-carol" "carol@example.com"
           "signed.0123456789abcdef0123456789abcdef").
Proof.
  intros lib request s'.
  exact (f_equal fst
           (proj1
              (register_then_login lib (Fixtures.plain_bcrypt false) Fixtures.settings0
                 Fixtures.utc "abcdefghijklmnopqrstuv" "u-carol" 300 301 400 request
                 (mkSession [] []) s'
                 (AuthResponse.mk "u-carol" "carol@example.com"
                    "signed.0123456789abcdef0123456789abcdef") eq_refl))).
Defined.

Lemma issued_token_at_gate_witness :
  let now := 1770000000 in
  let p := [ ("sub", JStr "u-alice"); ("email", JStr "alice@example.com");
             ("iat", JInt now); ("exp", JInt (now + 86400)) ] in
  let lib := Fixtures.one_token_jose p in
  let token := "signed.0123456789abcdef0123456789abcdef" in
  protected_gate lib Fixtures.settings0 fastapi_recent (now + 86400)
    (Some ("Bearer " ++ token))
  = inr (JStr "u-alice")
  /\ protected_gate lib Fixtures.settings0 fastapi_0_121 (now + 86401)
       (Some ("Bearer " ++ token))
     = inl (raise_unauthorized "Missing or invalid authentication token").
Proof.
  intros now p lib token.
  assert (Spec.signs_and_accepts lib p (Config.secret_key Fixtures.settings0)
            (Config.jwt_algorithm Fixtures.settings0) token) as Hlib
    by (repeat split).
  assert (bare token) as Hbare by (split; [discriminate | reflexivity]).
  split.
  - apply (issued_token_at_gate lib Fixtures.settings0 Fixtures.utc fastapi_recent now
             (now + 86400) "u-alice" "alice@example.com" token p 0 eq_refl Hlib eq_refl);
      [discriminate | exact Hbare | vm_compute; discriminate].
  - apply (issued_token_at_gate lib Fixtures.settings0 Fixtures.utc fastapi_0_121 now
             (now + 86401) "u-alice" "alice@example.com" token p 0 eq_refl Hlib eq_refl);
      [discriminate | exact Hbare | vm_compute; reflexivity].
Defined.

End AccountFlowWitnesses.

(** ** More on tasks, hashes and payloads *)

Section MoreFlows.
Import Errors Database Tasks Spec.

Lemma task_eta (t u : Task.t) :
  Task.id t = Task.id u -> Task.user_id t = Task.user_id u ->
  Task.title t = Task.title u -> Task.description t = Task.description u ->
  Task.due_date t = Task.due_date u -> Task.is_completed t = Task.is_completed u ->
  Task.created_at t = Task.created_at u -> Task.updated_at t = Task.updated_at u ->
  t = u.
Proof. destruct t, u; simpl; intros; subst; reflexivity. Qed.

Lemma map_replace_fixed (t' : Task.t) (rows : list Task.t) :
  map (fun r => if String.eqb (Task.id r) (Task.id t') then t' else r)
    (map (fun r => if String.eqb (Task.id r) (Task.id t') then t' else r) rows)
  = map (fun r => if String.eqb (Task.id r) (Task.id t') then t' else r) rows.
Proof.
  rewrite map_map. apply map_ext. intros r.
  destruct (String.eqb (Task.id r) (Task.id t')) eqn:E; [|now rewrite E].
  now rewrite String.eqb_refl.
Qed.

Lemma replaced_rows (t' x : Task.t) (rows : list Task.t) :
  In x (map (fun r => if String.eqb (Task.id r) (Task.id t') then t' else r) rows) ->
  Task.id x = Task.id t' -> x = t'.
Proof.
  intros Hin Hid. apply in_map_iff in Hin as (r & Hr & _).
  destruct (String.eqb (Task.id r) (Task.id t')) eqn:E; [congruence|].
  subst x. apply String.eqb_neq in E. contradiction.
Qed.

(** X17. An update is idempotent. Once [update_task] has returned the
    updated task, the same request at the same clock reading returns the
    same task again and leaves the session as the first update left
    it. *)
Theorem update_twice (now : datetime) (task_id uid : string) (req : TaskUpdate.t)
    (s s' : Session) (t' : Task.t)
    (Hupdate : update_task now task_id req uid s = (inr t', s')) :
  update_task now task_id req uid s' = (inr t', s').
Proof.
  assert (TaskUpdate.model_dump_exclude_unset req <> []) as Hne.
  { intros Hd. unfold update_task in Hupdate.
    destruct (first (owned_by task_id uid) (tasks s)); [rewrite Hd in Hupdate|];
      discriminate. }
  apply update_task_success in Hupdate as (t & Hf & Ht' & Hnn & Hs').
  destruct (apply_updates_fields t req) as (F1 & F2 & F3 & F4 & F5 & F6 & F7 & _).
  cbv zeta in *.
  set (dump := TaskUpdate.model_dump_exclude_unset req) in *.
  apply first_owned_some in Hf as (Hin & Hid & Hu).
  assert (Task.id t' = task_id /\ Task.user_id t' = uid) as [Hid' Hu']
    by (subst t'; cbn [set_updated_at Task.id Task.user_id]; split; congruence).
  (* the second query finds the row the first update stored *)
  assert (first (owned_by task_id uid) (tasks s') = Some t') as Hf'.
  { assert (In t' (tasks s')) as Hin'
      by (subst s'; cbn [tasks]; apply (in_replaced t t'); [exact Hin | congruence]).
    destruct (first_exists (owned_by task_id uid) (tasks s')) as [x Hx].
    - exists t'. split; [exact Hin'|]. apply owned_by_true. auto.
    - rewrite Hx. f_equal.
      apply first_owned_some in Hx as (Hxin & Hxid & _).
      subst s'. cbn [tasks] in Hxin. apply (replaced_rows t' x _ Hxin). congruence. }
  (* applying the same fields again changes nothing *)
  assert (set_updated_at (apply_updates t' dump) now = t') as Hsame.
  { destruct (apply_updates_fields t' req) as (G1 & G2 & G3 & G4 & G5 & G6 & G7 & _).
    cbv zeta in *. fold dump in G1, G2, G3, G4, G5, G6, G7.
    apply task_eta; cbn [set_updated_at Task.id Task.user_id Task.title Task.description
                         Task.due_date Task.is_completed Task.created_at Task.updated_at];
      try assumption.
    - rewrite G1. destruct (TaskUpdate.title req); [|reflexivity].
      rewrite Ht'. cbn [set_updated_at Task.title]. exact (eq_sym F1).
    - rewrite G2. destruct (TaskUpdate.description req); [|reflexivity].
      rewrite Ht'. cbn [set_updated_at Task.description]. exact (eq_sym F2).
    - rewrite G3. destruct (TaskUpdate.due_date req); [|reflexivity].
      rewrite Ht'. cbn [set_updated_at Task.due_date]. exact (eq_sym F3).
    - rewrite G4. destruct (TaskUpdate.is_completed req); [|reflexivity].
      rewrite Ht'. cbn [set_updated_at Task.is_completed]. exact (eq_sym F4).
    - rewrite Ht'. reflexivity. }
  unfold update_task. rewrite Hf'. fold dump.
  destruct dump as [|i items] eqn:Hd.
  - contradiction.
  - rewrite Hsame. unfold update_task_row. rewrite Hnn. simpl.
    subst s'. cbn [users tasks]. now rewrite map_replace_fixed.
Qed.

End MoreFlows.

Section MoreFlowTheorems.
Import Errors Database Tasks Spec.

Lemma filter_app_fresh (new_id : string) (rows : list Task.t) (task : Task.t) :
  (forall r, In r rows -> Task.id r <> new_id) -> Task.id task = new_id ->
  filter (fun r => negb (String.eqb (Task.id r) new_id)) (rows ++ [task]) = rows.
Proof.
  intros Hfree Hid. rewrite filter_app. simpl. rewrite Hid, String.eqb_refl. simpl.
  rewrite app_nil_r. apply forallb_filter_id. apply forallb_forall.
  intros r Hr. apply negb_true_iff, String.eqb_neq. now apply Hfree.
Qed.

(** X18. Create, then delete. Deleting the task [create_task] has just
    returned, under the same identity, is confirmed and gives back
    exactly the session from before the creation. *)
Theorem create_then_delete (new_id : string) (now1 now2 : datetime)
    (request : TaskCreate.t) (uid : string) (s s' : Session) (task : Task.t)
    (Hcreate : create_task new_id now1 now2 request uid s = (inr task, s')) :
  delete_task new_id uid s' = (inr "Task deleted successfully", s).
Proof.
  apply create_task_success in Hcreate as (Ht & -> & _ & Hfree & _).
  assert (Task.id task = new_id /\ Task.user_id task = uid) as [Hid Hu]
    by (subst task; split; reflexivity).
  clear Ht. unfold delete_task. cbn [tasks].
  rewrite first_app_last.
  - unfold delete_task_row. cbn [users tasks]. rewrite Hid.
    rewrite (filter_app_fresh new_id (tasks s) task Hfree Hid).
    destruct s; reflexivity.
  - intros r Hin. destruct (owned_by new_id uid r) eqn:Ho; [|reflexivity].
    apply owned_by_true in Ho as [Hr _]. exfalso. exact (Hfree r Hin Hr).
  - apply owned_by_true. auto.
Qed.

Lemma update_twice_witness :
  let req := TaskUpdate.mk None None None (Some (Some true)) in
  let s' := snd (update_task 500 "t-1" req "u-alice" Fixtures.session0) in
  update_task 500 "t-1" req "u-alice" s'
  = (inr (Task.mk "t-1" "u-alice" (Some "Buy groceries") (Some "Milk, eggs, bread")
            (Some 20500) (Some true) 100 500), s').
Proof.
  intros req s'.
  exact (update_twice 500 "t-1" "u-alice" req Fixtures.session0 s' _ eq_refl).
Defined.

Lemma create_then_delete_witness :
  let created := create_task "t-3" 200 201 (TaskCreate.mk "Call mum" None None false)
                   "u-alice" Fixtures.session0 in
  delete_task "t-3" "u-alice" (snd created)
  = (inr "Task deleted successfully", Fixtures.session0).
Proof.
  intros created.
  exact (create_then_delete "t-3" 200 201 (TaskCreate.mk "Call mum" None None false)
           "u-alice" Fixtures.session0 (snd created)
           (Task.mk "t-3" "u-alice" (Some "Call mum") None None (Some false) 200 201)
           eq_refl).
Defined.

End MoreFlowTheorems.

Section HashOutcomes.
Import Password.

Lemma substring_short (s : string) (n : nat) :
  (String.length s <= n)%nat -> substring 0 n s = s.
Proof.
  revert n. induction s as [|c s IH]; intros n Hlen.
  - destruct n; reflexivity.
  - destruct n; simpl in *; [lia|]. rewrite IH; [reflexivity | lia].
Qed.

Lemma prefix_salt (rand d : string) :
  String.prefix "$2b$12$" (gensalt 12 rand ++ d) = true.
Proof. simpl. destruct (rand ++ d); reflexivity. Qed.

(** X19. Outcomes of [hash_password], for a salt of the regular
    22 random characters. It returns a hash exactly when the library
    accepts the salt and does not refuse the password for its length;
    the hash is the salt [$2b$12$...] followed by the digest of the
    first 72 bytes of the password, and [verify_password] accepts the
    password against it, whatever its length. It raises when the salt is
    refused or when the password exceeds 72 bytes and the library
    refuses long passwords. *)
Theorem hash_password_outcomes (lib : Bcrypt) (rand P : string)
    (Hrand : String.length rand = 22%nat) :
  let salt := gensalt 12 rand in
  match hash_password lib rand P with
  | inr h =>
      valid_salt lib salt = true
      /\ ((72 < String.length P)%nat -> rejects_long lib = false)
      /\ h = salt ++ digest lib (substring 0 72 P) salt
      /\ String.prefix "$2b$12$" h = true
      /\ verify_password lib P h = true
  | inl _ =>
      valid_salt lib salt = false
      \/ ((72 < String.length P)%nat /\ rejects_long lib = true)
  end.
Proof.
  intros salt.
  destruct (hash_password lib rand P) as [err|h] eqn:Hrun.
  - unfold hash_password, hashpw in Hrun. fold salt in Hrun.
    pose proof (length_gensalt_12 rand Hrand) as H29. fold salt in H29.
    replace (substring 0 29 salt) with salt in Hrun
      by (rewrite <- H29; symmetry; apply substring_whole).
    rewrite H29 in Hrun. simpl in Hrun.
    destruct (valid_salt lib salt); [|now left]. simpl in Hrun.
    destruct (72 <? String.length P)%nat eqn:Hlong; [|discriminate].
    destruct (rejects_long lib); [|discriminate].
    right. split; [now apply Nat.ltb_lt | reflexivity].
  - assert (verify_password lib P h = true) as Hver.
    { unfold verify_password. unfold hash_password in Hrun.
      now rewrite (hashpw_then_checkpw lib _ _ _ Hrun). }
    unfold hash_password, hashpw in Hrun. fold salt in Hrun.
    pose proof (length_gensalt_12 rand Hrand) as H29. fold salt in H29.
    replace (substring 0 29 salt) with salt in Hrun
      by (rewrite <- H29; symmetry; apply substring_whole).
    rewrite H29 in Hrun. simpl in Hrun.
    destruct (valid_salt lib salt); [|discriminate]. simpl in Hrun.
    split; [reflexivity|].
    destruct (72 <? String.length P)%nat eqn:Hlong.
    + destruct (rejects_long lib); [discriminate|]. inversion Hrun; subst.
      split; [reflexivity|]. split; [reflexivity|]. split; [|exact Hver].
      apply prefix_salt.
    + inversion Hrun; subst. apply Nat.ltb_ge in Hlong.
      rewrite (substring_short P 72 Hlong).
      split; [intros Hgt; lia|]. split; [reflexivity|]. split; [|exact Hver].
      apply prefix_salt.
Qed.

Lemma hash_password_outcomes_witness :
  let lib := Fixtures.plain_bcrypt false in
  let P := Fixtures.long_password "b" in
  exists h,
    hash_password lib "abcdefghijklmnopqrstuv" P = inr h
    /\ verify_password lib P h = true.
Proof.
  intros lib P.
  pose proof (hash_password_outcomes lib "abcdefghijklmnopqrstuv" P eq_refl) as H.
  destruct (hash_password lib "abcdefghijklmnopqrstuv" P) as [err|h] eqn:Hrun.
  - discriminate Hrun.
  - exists h. split; [reflexivity|]. destruct H as (_ & _ & _ & _ & Hver). exact Hver.
Defined.

End HashOutcomes.

Section GateWitnesses.
Import Errors Database Auth Dependencies Spec.

Lemma optional_gate_outcomes_witness :
  let now := 1770000000 in
  let p := [ ("sub", JStr "u-alice"); ("email", JStr "alice@example.com");
             ("iat", JInt now); ("exp", JInt (now + 86400)) ] in
  let lib := Fixtures.one_token_jose p in
  let header := Some "Bearer signed.0123456789abcdef0123456789abcdef" in
  protected_gate lib Fixtures.settings0 fastapi_recent now header = inr (JStr "u-alice")
  /\ optional_gate lib Fixtures.settings0 fastapi_recent now header
     = inr (Some (JStr "u-alice"))
  /\ optional_gate lib Fixtures.settings0 fastapi_recent now (Some "Basic dXNlcjpwdw==")
     = inr None.
Proof.
  intros now p lib header.
  assert (protected_gate lib Fixtures.settings0 fastapi_recent now header
          = inr (JStr "u-alice"))
    as Hgate by reflexivity.
  split; [exact Hgate|]. split.
  - exact (proj2 (optional_gate_outcomes lib Fixtures.settings0 fastapi_recent now header)
             (JStr "u-alice") Hgate).
  - exact (proj1 (optional_gate_outcomes lib Fixtures.settings0 fastapi_recent now
                    (Some "Basic dXNlcjpwdw=="))).
Defined.

Lemma extract_user_id_agrees_witness :
  let now := 1770000000 in
  let p := [ ("sub", JStr "u-alice"); ("email", JStr "alice@example.com");
             ("iat", JInt now); ("exp", JInt (now + 86400)) ] in
  let lib := Fixtures.one_token_jose p in
  let creds := mkCredentials "Bearer" "signed.0123456789abcdef0123456789abcdef" in
  Jwt.extract_user_id lib Fixtures.settings0 now (credentials creds)
  = inr (Some (JStr "u-alice"))
  /\ get_current_user lib Fixtures.settings0 now creds = inr (JStr "u-alice").
Proof.
  intros now p lib creds.
  assert (Jwt.extract_user_id lib Fixtures.settings0 now (credentials creds)
          = inr (Some (JStr "u-alice"))) as Hx by reflexivity.
  split; [exact Hx|].
  apply (proj2 (extract_user_id_agrees lib Fixtures.settings0 now creds (JStr "u-alice"))).
  split; [exact Hx | reflexivity].
Defined.

(** The theorem at work: Carol registers on a server whose token
    lifetime leaves the range of [datetime]. She is answered with the
    catch-all error, and her row is in the table. *)
Lemma register_outcomes_witness :
  let lib := Fixtures.one_token_jose [] in
  let request := RegisterRequest.mk "carol@example.com" "SecurePass123" in
  exists s',
    register lib (Fixtures.plain_bcrypt false) Fixtures.settings_far Fixtures.utc
      "abcdefghijklmnopqrstuv" "u-carol" 300 301 request Fixtures.session0
    = (inl RaiseOther, s')
    /\ length (users s') = 3%nat
    /\ s' <> Fixtures.session0.
Proof.
  intros lib request.
  pose proof (register_outcomes lib (Fixtures.plain_bcrypt false) Fixtures.settings_far
                Fixtures.utc "abcdefghijklmnopqrstuv" "u-carol" 300 301 request
                Fixtures.session0) as H.
  cbv zeta in H.
  destruct (register lib (Fixtures.plain_bcrypt false) Fixtures.settings_far Fixtures.utc
              "abcdefghijklmnopqrstuv" "u-carol" 300 301 request Fixtures.session0)
    as [[e|r] s'] eqn:Hrun.
  - destruct H as [(_ & He & _)|[(Hs & _)|(He & _ & _ & _ & h & _ & Hs & Hne)]].
    + subst e. discriminate Hrun.
    + subst s'. vm_compute in Hrun. discriminate Hrun.
    + exists s'. subst e. split; [reflexivity|]. split; [|exact Hne].
      subst s'. reflexivity.
  - discriminate Hrun.
Defined.

End GateWitnesses.
